(** * rekor-server: the transparency-log client and the admission policy

    A shallow embedding of [app/trillian_client.go] and of the file-type
    gate [IsFileTypeAllowed], together with the properties of the
    natural-language specification that concern them.

    The Go code talks to an external Trillian log service through the
    [TrillianLogClient] and [TrillianAdminClient] interfaces, writes to a
    logger, and can panic or terminate the process.  Each function is
    therefore embedded as a finite interaction tree ([Go R]): a node is a
    call leaving the function together with the continuation that receives
    the reply.  [run] executes such a tree against an arbitrary service and
    records the calls that were issued. *)

From Stdlib Require Import ZArith List String Ascii Strings.Byte Bool Lia.
Import ListNotations.
Local Open Scope string_scope.
Local Open Scope list_scope.
Local Open Scope Z_scope.

(** ** Go values *)

(** [[]byte] *)
Definition bytes := list byte.

(** Go's [error] interface has the single method [Error() string]; a nil
    error is [None] of [option error]. *)
Record error : Type := errors_New { Error : string }.

(** Conversions between integer types wrap around. *)
Definition int64 (z : Z) : Z := (z + 2 ^ 63) mod 2 ^ 64 - 2 ^ 63.
Definition uint32 (z : Z) : Z := z mod 2 ^ 32.

(** [time.Duration] is a number of nanoseconds. *)
Definition time_Second : Z := 1000000000.
Definition time_Hour : Z := 3600 * time_Second.

(** [context.Context]: only the way a context is built matters here. *)
Inductive Context : Type :=
| Background
| WithTimeout (parent : Context) (timeout : Z).

(** The time, counted from its creation, after which a context expires;
    [None] when it never does. *)
Fixpoint timeout_bound (ctx : Context) : option Z :=
  match ctx with
  | Background => None
  | WithTimeout parent d =>
      match timeout_bound parent with
      | None => Some d
      | Some d' => Some (Z.min d d')
      end
  end.

(** ** [google.golang.org/grpc/codes] *)

Module codes.
Definition Code := Z.  (* uint32 *)
Definition OK : Code := 0.
Definition Canceled : Code := 1.
Definition Unknown : Code := 2.
Definition InvalidArgument : Code := 3.
Definition DeadlineExceeded : Code := 4.
Definition NotFound : Code := 5.
Definition AlreadyExists : Code := 6.
Definition Unavailable : Code := 14.
End codes.

(** ** Protocol messages of the log service

    Pointers to messages are [option]s, [None] being nil.  The elements of
    a repeated message field are never nil once decoded from the wire, so
    such a field is a plain list. *)

Module Status.
Record t := mk { Code : Z (* int32 *); Message : string }.
(** The generated getter is safe on a nil receiver. *)
Definition GetCode (s : option t) : Z :=
  match s with Some s => Code s | None => 0 end.
End Status.

Module SignedLogRoot.
Record t := mk { LogRoot : bytes; LogRootSignature : bytes }.
End SignedLogRoot.

Module LogRootV1.
Record t := mk {
  TreeSize : Z (* uint64 *);
  RootHash : bytes;
  TimestampNanos : Z;
  Revision : Z }.
Definition zero : t := mk 0 [] 0 0.
End LogRootV1.

Module LogLeaf.
Record t := mk {
  MerkleLeafHash : bytes;
  LeafValue : bytes;
  ExtraData : bytes;
  LeafIndex : Z }.
End LogLeaf.

Module QueuedLogLeaf.
Record t := mk { Leaf : option LogLeaf.t; Status : option Status.t }.
Definition GetStatus (q : option t) : option Status.t :=
  match q with Some q => Status q | None => None end.
End QueuedLogLeaf.

Module Proof_.
Record t := mk { LeafIndex : Z; Hashes : list bytes }.
Definition GetHashes (p : t) : list bytes := Hashes p.
End Proof_.

Module GetLatestSignedLogRootRequest.
Record t := mk { LogId : Z }.
End GetLatestSignedLogRootRequest.

Module GetLatestSignedLogRootResponse.
Record t := mk { SignedLogRoot : option SignedLogRoot.t }.
End GetLatestSignedLogRootResponse.

Module GetInclusionProofByHashRequest.
Record t := mk { LogId : Z; LeafHash : bytes; TreeSize : Z }.
End GetInclusionProofByHashRequest.

Module GetInclusionProofByHashResponse.
Record t := mk { Proof_ : list Proof_.t; SignedLogRoot : option SignedLogRoot.t }.
End GetInclusionProofByHashResponse.

Module QueueLeafRequest.
Record t := mk { LogId : Z; Leaf : option LogLeaf.t }.
End QueueLeafRequest.

Module QueueLeafResponse.
Record t := mk { QueuedLeaf : option QueuedLogLeaf.t }.
End QueueLeafResponse.

Module GetLeavesByHashRequest.
Record t := mk { LogId : Z; LeafHash : list bytes }.
End GetLeavesByHashRequest.

Module GetLeavesByHashResponse.
Record t := mk { Leaves : list LogLeaf.t; SignedLogRoot : option SignedLogRoot.t }.
End GetLeavesByHashResponse.

Inductive TreeType : Type :=
| TreeType_UNKNOWN_TREE_TYPE | TreeType_LOG | TreeType_MAP | TreeType_PREORDERED_LOG.

Definition TreeType_eqb (a b : TreeType) : bool :=
  match a, b with
  | TreeType_UNKNOWN_TREE_TYPE, TreeType_UNKNOWN_TREE_TYPE
  | TreeType_LOG, TreeType_LOG
  | TreeType_MAP, TreeType_MAP
  | TreeType_PREORDERED_LOG, TreeType_PREORDERED_LOG => true
  | _, _ => false
  end.

Inductive TreeState : Type :=
| TreeState_UNKNOWN_TREE_STATE | TreeState_ACTIVE | TreeState_FROZEN
| TreeState_DRAINING.

Inductive HashStrategy : Type :=
| HashStrategy_UNKNOWN_HASH_STRATEGY | HashStrategy_RFC6962_SHA256
| HashStrategy_TEST_MAP_HASHER | HashStrategy_OBJECT_RFC6962_SHA256
| HashStrategy_CONIKS_SHA512_256 | HashStrategy_CONIKS_SHA256.

Inductive HashAlgorithm : Type :=
| DigitallySigned_NONE | DigitallySigned_SHA256.

Inductive SignatureAlgorithm : Type :=
| DigitallySigned_ANONYMOUS | DigitallySigned_RSA | DigitallySigned_ECDSA.

Module Duration.
Record t := mk { Seconds : Z; Nanos : Z }.
End Duration.

(** [ptypes.DurationProto]: whole seconds and the remaining nanoseconds. *)
Definition ptypes_DurationProto (d : Z) : Duration.t :=
  Duration.mk (Z.quot d time_Second) (Z.rem d time_Second).

Module Tree.
Record t := mk {
  TreeId : Z;
  TreeState : TreeState;
  TreeType : TreeType;
  HashStrategy : HashStrategy;
  HashAlgorithm : HashAlgorithm;
  SignatureAlgorithm : SignatureAlgorithm;
  MaxRootDuration : option Duration.t }.
End Tree.

Module Specification.
Inductive params : Type :=
| EcdsaParams
| RsaParams (bits : Z).
Record t := mk { Params : option params }.
End Specification.

Module ListTreesRequest.
Record t := mk { ShowDeleted : bool }.
Definition zero : t := mk false.
End ListTreesRequest.

Module ListTreesResponse.
Record t := mk { Tree : list Tree.t }.
End ListTreesResponse.

Module CreateTreeRequest.
Record t := mk { Tree : option Tree.t; KeySpec : option Specification.t }.
End CreateTreeRequest.

(** ** Calls that leave the client *)

(** An argument handed to a logging or printing function. *)
Inductive LogArg : Type :=
| ArgInt (z : Z)
| ArgBytes (b : bytes)
| ArgError (e : error).

Inductive Call : Type :=
(* trillian.TrillianLogClient *)
| GetLatestSignedLogRoot (ctx : Context) (rqst : GetLatestSignedLogRootRequest.t)
| GetInclusionProofByHash (ctx : Context) (rqst : GetInclusionProofByHashRequest.t)
| QueueLeaf (ctx : Context) (rqst : QueueLeafRequest.t)
| GetLeavesByHash (ctx : Context) (rqst : GetLeavesByHashRequest.t)
(* trillian.TrillianAdminClient *)
| ListTrees (ctx : Context) (rqst : ListTreesRequest.t)
| CreateTree (ctx : Context) (rqst : CreateTreeRequest.t)
(* client.InitLog and client.InitMap *)
| InitLog (ctx : Context) (tree : option Tree.t)
| InitMap (ctx : Context) (tree : option Tree.t)
(* logging and printing *)
| Logger_Infof (format : string) (args : list LogArg)
| Logger_Fatal (args : list LogArg)
| fmt_Println (args : list LogArg)
(* the cancel function returned by context.WithTimeout *)
| cancel (ctx : Context).

(** What a call gives back: an RPC returns a response pointer and an
    error. *)
Definition Reply (c : Call) : Type :=
  match c with
  | GetLatestSignedLogRoot _ _ =>
      (option GetLatestSignedLogRootResponse.t * option error)%type
  | GetInclusionProofByHash _ _ =>
      (option GetInclusionProofByHashResponse.t * option error)%type
  | QueueLeaf _ _ => (option QueueLeafResponse.t * option error)%type
  | GetLeavesByHash _ _ => (option GetLeavesByHashResponse.t * option error)%type
  | ListTrees _ _ => (option ListTreesResponse.t * option error)%type
  | CreateTree _ _ => (option Tree.t * option error)%type
  | InitLog _ _ => option error
  | InitMap _ _ => option error
  | Logger_Infof _ _ => unit
  | Logger_Fatal _ => unit
  | fmt_Println _ => unit
  | cancel _ => unit
  end.

(** The context an RPC is issued under; [None] for calls that take none. *)
Definition rpc_context (c : Call) : option Context :=
  match c with
  | GetLatestSignedLogRoot ctx _ | GetInclusionProofByHash ctx _
  | QueueLeaf ctx _ | GetLeavesByHash ctx _
  | ListTrees ctx _ | CreateTree ctx _
  | InitLog ctx _ | InitMap ctx _ => Some ctx
  | _ => None
  end.

Definition is_GetInclusionProofByHash (c : Call) : bool :=
  match c with GetInclusionProofByHash _ _ => true | _ => false end.

(** ** Go functions as interaction trees *)

Inductive Go (R : Type) : Type :=
| Return (r : R)
| Panic (msg : string)
| Exit (code : Z)
| Do (c : Call) (k : Reply c -> Go R).

Arguments Return {R} r.
Arguments Panic {R} msg.
Arguments Exit {R} code.
Arguments Do {R} c k.

Fixpoint bind {A B : Type} (m : Go A) (f : A -> Go B) : Go B :=
  match m with
  | Return a => f a
  | Panic msg => Panic msg
  | Exit code => Exit code
  | Do c k => Do c (fun x => bind (k x) f)
  end.

Definition call (c : Call) : Go (Reply c) := Do c Return.

Notation "x <- m ;; k" := (bind m (fun x => k))
  (at level 61, m at next level, right associativity).
Notation "' p <- m ;; k" := (bind m (fun x => let p := x in k))
  (at level 61, p pattern, m at next level, right associativity).
Notation "m ;;; k" := (bind m (fun _ => k))
  (at level 61, right associativity).

(** [defer f()]: the deferred call runs when the function returns and
    when it panics, not when the process exits. *)
Fixpoint defer {R : Type} (d : Call) (body : Go R) : Go R :=
  match body with
  | Return r => Do d (fun _ => Return r)
  | Panic msg => Do d (fun _ => Panic msg)
  | Exit code => Exit code
  | Do c k => Do c (fun x => defer d (k x))
  end.

(** Dereferencing a nil pointer. *)
Definition nil_dereference : string :=
  "runtime error: invalid memory address or nil pointer dereference".

Definition deref {A : Type} (p : option A) : Go A :=
  match p with
  | Some a => Return a
  | None => Panic nil_dereference
  end.

(** Modelled from the spec: package [logging] is not part of the sources
    at hand; its [Logger.Fatal] writes the message and then aborts the
    whole program ("unrecoverable abort", "terminate the process"), here
    with exit status 1. *)
Definition logging_Logger_Fatal {R : Type} (args : list LogArg) : Go R :=
  Do (Logger_Fatal args) (fun _ => Exit 1).

(** ** Running a function against a service *)

Inductive Outcome (R : Type) : Type :=
| Returned (r : R)
| Panicked (msg : string)
| Exited (code : Z).

Arguments Returned {R} r.
Arguments Panicked {R} msg.
Arguments Exited {R} code.

(** The world outside the client: it answers every call and may change
    its state while doing so. *)
Definition Service (St : Type) : Type := forall c : Call, St -> Reply c * St.

Fixpoint run {St R : Type} (srv : Service St) (p : Go R) (st : St)
  : Outcome R * St * list Call :=
  match p with
  | Return r => (Returned r, st, [])
  | Panic msg => (Panicked msg, st, [])
  | Exit code => (Exited code, st, [])
  | Do c k =>
      let (x, st') := srv c st in
      let '(o, st'', tr) := run srv (k x) st' in
      (o, st'', c :: tr)
  end.

Definition outcome {St R : Type} (r : Outcome R * St * list Call) : Outcome R :=
  fst (fst r).
Definition final_state {St R : Type} (r : Outcome R * St * list Call) : St :=
  snd (fst r).
Definition trace {St R : Type} (r : Outcome R * St * list Call) : list Call :=
  snd r.

(** ** The admission policy: [IsFileTypeAllowed] *)

(** [strings.Contains]: [substr] occurs somewhere in [s]. *)
Fixpoint strings_Contains (s substr : string) : bool :=
  String.prefix substr s
  || match s with
     | EmptyString => false
     | String _ s' => strings_Contains s' substr
     end.

Section FileType.

(** [http.DetectContentType], a black-box classifier of the payload. *)
Variable http_DetectContentType : bytes -> string.
(** [viper.GetBool], the process-wide configuration. *)
Variable viper_GetBool : string -> bool.

Definition IsFileTypeAllowed (byteLeaf : bytes) : bool * option error :=
  let contentType := http_DetectContentType byteLeaf in
  if Bool.eqb (viper_GetBool "rekor_server.enforce_text_only") true then
    if negb (strings_Contains contentType "text/plain") then
      (false, None)
    else
      (true, None)
  else
    (true, None).

End FileType.

(** ** The log client: [trillian_client.go] *)

(** Of the fields of [trillianclient], [client] is the service the calls
    go to and [lc] and [ctx] are never read; [logID] remains. *)
Record trillianclient : Type := { logID : Z }.

Record Response : Type := {
  status : codes.Code;
  getLeafResult : option GetLeavesByHashResponse.t;
  getProofResult : option GetInclusionProofByHashResponse.t }.

(** [Response{}] *)
Definition Response_zero : Response :=
  {| status := 0; getLeafResult := None; getProofResult := None |}.

(** [serverInstance client tLogID]; the client is the service a function
    is run against. *)
Definition serverInstance (tLogID : Z) : trillianclient :=
  {| logID := tLogID |}.

Section TrillianClient.

(** [rfc6962.DefaultHasher.HashLeaf] *)
Variable HashLeaf : bytes -> bytes.
(** [types.LogRootV1.UnmarshalBinary]: the decoded root, or an error. *)
Variable UnmarshalBinary : bytes -> LogRootV1.t + error.
(** [merkle.LogVerifier.VerifyInclusionProof leafIndex treeSize proof root
    leafHash]: nil when the root hash derived from the leaf hash and the
    audit path equals [root]. *)
Variable VerifyInclusionProof :
  Z -> Z -> list bytes -> bytes -> bytes -> option error.
(** [status.Code] of grpc *)
Variable status_Code : option error -> codes.Code.

Definition root (s : trillianclient) : Go (LogRootV1.t * option error) :=
  let rqst := {| GetLatestSignedLogRootRequest.LogId := logID s |} in
  '(resp, err) <- call (GetLatestSignedLogRoot Background rqst) ;;
  match err with
  | Some e => Return (LogRootV1.zero, Some e)
  | None =>
      resp <- deref resp ;;
      slr <- deref (GetLatestSignedLogRootResponse.SignedLogRoot resp) ;;
      match UnmarshalBinary (SignedLogRoot.LogRoot slr) with
      | inr e => Return (LogRootV1.zero, Some e)
      | inl root' => Return (root', None)
      end
  end.

(** The inner loop of [getProof], over the hashes of proof [i]. *)
Fixpoint log_hashes (i j : Z) (hashes : list bytes) : Go unit :=
  match hashes with
  | [] => Return tt
  | hash :: rest =>
      call (Logger_Infof "Proof[%d],hash[%d] == %x\n"
              [ArgInt i; ArgInt j; ArgBytes hash]) ;;;
      log_hashes i (j + 1) rest
  end.

(** Verification of one proof against the fetched root. *)
Definition verify_one (root' : LogRootV1.t) (leafHash : bytes) (proof : Proof_.t)
  : option error :=
  VerifyInclusionProof (Proof_.LeafIndex proof) (int64 (LogRootV1.TreeSize root'))
    (Proof_.GetHashes proof) (LogRootV1.RootHash root') leafHash.

(** The outer loop of [getProof]; [Some e] when it returns early. *)
Fixpoint verify_proofs (root' : LogRootV1.t) (leafHash : bytes) (i : Z)
  (proofs : list Proof_.t) : Go (option error) :=
  match proofs with
  | [] => Return None
  | proof :: rest =>
      let hashes := Proof_.GetHashes proof in
      log_hashes i 0 hashes ;;;
      match verify_one root' leafHash proof with
      | Some e => Return (Some e)
      | None => verify_proofs root' leafHash (i + 1) rest
      end
  end.

(** What the outer loop amounts to: the error of the first proof that
    does not verify, if there is one. *)
Fixpoint first_failure (root' : LogRootV1.t) (leafHash : bytes)
  (proofs : list Proof_.t) : option error :=
  match proofs with
  | [] => None
  | proof :: rest =>
      match verify_one root' leafHash proof with
      | Some e => Some e
      | None => first_failure root' leafHash rest
      end
  end.

Definition getProof (s : trillianclient) (byteValue : bytes) (tLogID : Z)
  : Go (Response * option error) :=
  let ctx := WithTimeout Background (20 * time_Second) in
  defer (cancel ctx)
    ('(root', err) <- root s ;;
     match err with
     | Some e => Return (Response_zero, Some e)
     | None =>
         let leafHash := HashLeaf byteValue in
         '(resp, err) <- call (GetInclusionProofByHash ctx
            {| GetInclusionProofByHashRequest.LogId := tLogID;
               GetInclusionProofByHashRequest.LeafHash := leafHash;
               GetInclusionProofByHashRequest.TreeSize :=
                 int64 (LogRootV1.TreeSize root') |}) ;;
         failed <- match resp with
                   | Some r =>
                       verify_proofs root' leafHash 0
                         (GetInclusionProofByHashResponse.Proof_ r)
                   | None => Return None
                   end ;;
         match failed with
         | Some e => Return (Response_zero, Some e)
         | None =>
             Return ({| status := status_Code err;
                        getLeafResult := None;
                        getProofResult := resp |}, None)
         end
     end).

Definition addLeaf (s : trillianclient) (byteValue : bytes) (tLogID : Z)
  : Go (Response * option error) :=
  let leaf := {| LogLeaf.MerkleLeafHash := []; LogLeaf.LeafValue := byteValue;
                 LogLeaf.ExtraData := []; LogLeaf.LeafIndex := 0 |} in
  let rqst := {| QueueLeafRequest.LogId := tLogID;
                 QueueLeafRequest.Leaf := Some leaf |} in
  '(resp, err) <- call (QueueLeaf Background rqst) ;;
  match err with
  | Some e => call (fmt_Println [ArgError e])
  | None => Return tt
  end ;;;
  resp <- deref resp ;;
  let resultCode :=
    uint32 (Status.GetCode
              (QueuedLogLeaf.GetStatus (QueueLeafResponse.QueuedLeaf resp))) in
  Return ({| status := resultCode; getLeafResult := None;
             getProofResult := None |}, None).

Definition getLeaf (s : trillianclient) (byteValue : bytes) (tlog_id : Z)
  : Go (Response * option error) :=
  let leafHash := HashLeaf byteValue in
  let rqst := {| GetLeavesByHashRequest.LogId := tlog_id;
                 GetLeavesByHashRequest.LeafHash := [leafHash] |} in
  '(resp, err) <- call (GetLeavesByHash Background rqst) ;;
  match err with
  | Some e => logging_Logger_Fatal [ArgError e]
  | None => Return tt
  end ;;;
  Return ({| status := status_Code err; getLeafResult := resp;
             getProofResult := None |}, None).

End TrillianClient.

(** The tree both provisioning functions ask the service to create. *)
Definition new_tree (type : TreeType) (strategy : HashStrategy) : Tree.t :=
  {| Tree.TreeId := 0;
     Tree.TreeState := TreeState_ACTIVE;
     Tree.TreeType := type;
     Tree.HashStrategy := strategy;
     Tree.HashAlgorithm := DigitallySigned_SHA256;
     Tree.SignatureAlgorithm := DigitallySigned_ECDSA;
     Tree.MaxRootDuration := Some (ptypes_DurationProto time_Hour) |}.

Definition ecdsa_key_spec : Specification.t :=
  {| Specification.Params := Some Specification.EcdsaParams |}.

Definition createAndInitTree (ctx : Context) : Go (option Tree.t * option error) :=
  (* First look for and use an existing tree *)
  '(trees, err) <- call (ListTrees ctx ListTreesRequest.zero) ;;
  match err with
  | Some e => Return (None, Some e)
  | None =>
      trees <- deref trees ;;
      match find (fun t => TreeType_eqb (Tree.TreeType t) TreeType_LOG)
                 (ListTreesResponse.Tree trees) with
      | Some t => Return (Some t, None)
      | None =>
          (* Otherwise create and initialize one *)
          '(t, err) <- call (CreateTree ctx
             {| CreateTreeRequest.Tree :=
                  Some (new_tree TreeType_LOG HashStrategy_RFC6962_SHA256);
                CreateTreeRequest.KeySpec := Some ecdsa_key_spec |}) ;;
          match err with
          | Some e => Return (None, Some e)
          | None =>
              err <- call (InitLog ctx t) ;;
              match err with
              | Some e => Return (None, Some e)
              | None => Return (t, None)
              end
          end
      end
  end.

Definition createAndInitMap (ctx : Context) : Go (option Tree.t * option error) :=
  (* First look for and use an existing tree *)
  '(trees, err) <- call (ListTrees ctx ListTreesRequest.zero) ;;
  match err with
  | Some e => Return (None, Some e)
  | None =>
      trees <- deref trees ;;
      match find (fun t => TreeType_eqb (Tree.TreeType t) TreeType_MAP)
                 (ListTreesResponse.Tree trees) with
      | Some t => Return (Some t, None)
      | None =>
          (* Otherwise create and initialize one *)
          '(t, err) <- call (CreateTree ctx
             {| CreateTreeRequest.Tree :=
                  Some (new_tree TreeType_MAP HashStrategy_CONIKS_SHA256);
                CreateTreeRequest.KeySpec := Some ecdsa_key_spec |}) ;;
          match err with
          | Some e => Return (None, Some e)
          | None =>
              err <- call (InitMap ctx t) ;;
              match err with
              | Some e => Return (None, Some e)
              | None => Return (t, None)
              end
          end
      end
  end.

(** The proofs a reply to [GetInclusionProofByHash] carries; a nil
    response carries none. *)
Definition returned_proofs (resp : option GetInclusionProofByHashResponse.t)
  : list Proof_.t :=
  match resp with
  | Some r => GetInclusionProofByHashResponse.Proof_ r
  | None => []
  end.

(** The request [getProof] sends for its proof. *)
Definition proof_request (tLogID : Z) (leafHash : bytes) (root' : LogRootV1.t)
  : GetInclusionProofByHashRequest.t :=
  {| GetInclusionProofByHashRequest.LogId := tLogID;
     GetInclusionProofByHashRequest.LeafHash := leafHash;
     GetInclusionProofByHashRequest.TreeSize := int64 (LogRootV1.TreeSize root') |}.

(** The context [getProof] creates on entry. *)
Definition getProof_ctx : Context := WithTimeout Background (20 * time_Second).

(** The requests [addLeaf] and [getLeaf] send. *)
Definition queue_request (byteValue : bytes) (tLogID : Z) : QueueLeafRequest.t :=
  {| QueueLeafRequest.LogId := tLogID;
     QueueLeafRequest.Leaf :=
       Some {| LogLeaf.MerkleLeafHash := []; LogLeaf.LeafValue := byteValue;
               LogLeaf.ExtraData := []; LogLeaf.LeafIndex := 0 |} |}.

Definition leaves_request (leafHash : bytes) (tlog_id : Z) : GetLeavesByHashRequest.t :=
  {| GetLeavesByHashRequest.LogId := tlog_id;
     GetLeavesByHashRequest.LeafHash := [leafHash] |}.

(** The status code a reply to [QueueLeaf] reports for the queued leaf. *)
Definition queued_code (resp : QueueLeafResponse.t) : codes.Code :=
  uint32 (Status.GetCode
            (QueuedLogLeaf.GetStatus (QueueLeafResponse.QueuedLeaf resp))).

(** Two calls of the same function, one after the other. *)
Definition twice {R : Type} (p : Go R) : Go (R * R) :=
  r1 <- p ;; r2 <- p ;; Return (r1, r2).

(** ** A small service to run the client against

    The replies of the log RPCs are fixed by a script; the admin part keeps
    the list of trees it has created. *)

Record Script : Type := {
  on_GetLatestSignedLogRoot :
    option GetLatestSignedLogRootResponse.t * option error;
  on_GetInclusionProofByHash :
    option GetInclusionProofByHashResponse.t * option error;
  on_QueueLeaf : option QueueLeafResponse.t * option error;
  on_GetLeavesByHash : option GetLeavesByHashResponse.t * option error }.

Definition with_id (id : Z) (t : Tree.t) : Tree.t :=
  {| Tree.TreeId := id;
     Tree.TreeState := Tree.TreeState t;
     Tree.TreeType := Tree.TreeType t;
     Tree.HashStrategy := Tree.HashStrategy t;
     Tree.HashAlgorithm := Tree.HashAlgorithm t;
     Tree.SignatureAlgorithm := Tree.SignatureAlgorithm t;
     Tree.MaxRootDuration := Tree.MaxRootDuration t |}.

Definition scripted (sc : Script) : Service (list Tree.t) :=
  fun c =>
    match c as c' return list Tree.t -> Reply c' * list Tree.t with
    | GetLatestSignedLogRoot _ _ => fun st => (on_GetLatestSignedLogRoot sc, st)
    | GetInclusionProofByHash _ _ => fun st => (on_GetInclusionProofByHash sc, st)
    | QueueLeaf _ _ => fun st => (on_QueueLeaf sc, st)
    | GetLeavesByHash _ _ => fun st => (on_GetLeavesByHash sc, st)
    | ListTrees _ _ => fun st => ((Some {| ListTreesResponse.Tree := st |}, None), st)
    | CreateTree _ rqst => fun st =>
        match CreateTreeRequest.Tree rqst with
        | Some t =>
            let t' := with_id (1 + Z.of_nat (List.length st)) t in
            ((Some t', None), st ++ [t'])
        | None => ((None, Some (errors_New "a tree is required")), st)
        end
    | InitLog _ _ => fun st => (None, st)
    | InitMap _ _ => fun st => (None, st)
    | Logger_Infof _ _ => fun st => (tt, st)
    | Logger_Fatal _ => fun st => (tt, st)
    | fmt_Println _ => fun st => (tt, st)
    | cancel _ => fun st => (tt, st)
    end.

Fixpoint bytes_eqb (a b : bytes) : bool :=
  match a, b with
  | [], [] => true
  | x :: a', y :: b' => Byte.eqb x y && bytes_eqb a' b'
  | _, _ => false
  end.

(** Stand-ins for the library functions, small enough to compute with.
    The leaf hash is the payload behind a zero byte, an inner node is the
    concatenation of what lies below it. *)
Definition toy_HashLeaf (b : bytes) : bytes := x00 :: b.

Definition toy_UnmarshalBinary (b : bytes) : LogRootV1.t + error :=
  match b with
  | [] => inr (errors_New "logRootBytes too short")
  | n :: h =>
      inl {| LogRootV1.TreeSize := Z.of_N (Byte.to_N n);
             LogRootV1.RootHash := h;
             LogRootV1.TimestampNanos := 0;
             LogRootV1.Revision := 0 |}
  end.

Definition toy_VerifyInclusionProof (leafIndex treeSize : Z) (proof : list bytes)
  (root' leafHash : bytes) : option error :=
  if (leafIndex <? 0) || (treeSize <=? leafIndex) then
    Some (errors_New "leafIndex is beyond treeSize")
  else if bytes_eqb (fold_left (fun acc h => acc ++ h) proof leafHash) root' then
    None
  else
    Some (errors_New "calculated root does not match").

Definition toy_status_Code (err : option error) : codes.Code :=
  match err with
  | None => codes.OK
  | Some e =>
      if String.eqb (Error e) "not found" then codes.NotFound
      else codes.Unknown
  end.

Definition toy_DetectContentType (b : bytes) : string :=
  match b with
  | x89 :: x50 :: x4e :: x47 :: _ => "image/png"
  | _ => "text/plain; charset=utf-8"
  end.

Definition enforce_text_only (flag : bool) (key : string) : bool :=
  if String.eqb key "rekor_server.enforce_text_only" then flag else false.

(** A root over the two leaves [toy_HashLeaf "a"] and [toy_HashLeaf "b"]. *)
Definition toy_root_reply
  : option GetLatestSignedLogRootResponse.t * option error :=
  (Some {| GetLatestSignedLogRootResponse.SignedLogRoot :=
             Some {| SignedLogRoot.LogRoot := [x02; x00; x61; x00; x62];
                     SignedLogRoot.LogRootSignature := [] |} |}, None).

Definition toy_script
  (proof : option GetInclusionProofByHashResponse.t * option error)
  (queue : option QueueLeafResponse.t * option error)
  (leaves : option GetLeavesByHashResponse.t * option error) : Script :=
  {| on_GetLatestSignedLogRoot := toy_root_reply;
     on_GetInclusionProofByHash := proof;
     on_QueueLeaf := queue;
     on_GetLeavesByHash := leaves |}.

Definition unavailable : error := errors_New "connection refused".

Definition toy_log_tree : Tree.t :=
  with_id 7 (new_tree TreeType_LOG HashStrategy_RFC6962_SHA256).
Definition toy_map_tree : Tree.t :=
  with_id 9 (new_tree TreeType_MAP HashStrategy_CONIKS_SHA256).

(** Every RPC of a trace is issued under a context that expires. *)
Definition all_rpcs_bounded (tr : list Call) : bool :=
  forallb (fun c =>
             match rpc_context c with
             | Some ctx =>
                 match timeout_bound ctx with Some _ => true | None => false end
             | None => true
             end) tr.

(** Replies to the proof request for the leaf ["a"]: a proof that
    verifies, and the same proof with a byte of its audit path changed. *)
Definition toy_good_proof : Proof_.t :=
  {| Proof_.LeafIndex := 0; Proof_.Hashes := [[x00; x62]] |}.
Definition toy_bad_proof : Proof_.t :=
  {| Proof_.LeafIndex := 0; Proof_.Hashes := [[x00; x63]] |}.

Definition toy_proofs (proofs : list Proof_.t)
  : option GetInclusionProofByHashResponse.t :=
  Some {| GetInclusionProofByHashResponse.Proof_ := proofs;
          GetInclusionProofByHashResponse.SignedLogRoot := None |}.

Definition toy_decoded_root : LogRootV1.t :=
  {| LogRootV1.TreeSize := 2; LogRootV1.RootHash := [x00; x61; x00; x62];
     LogRootV1.TimestampNanos := 0; LogRootV1.Revision := 0 |}.

(** A service whose proof RPC answers [proof]; the other log RPCs fail. *)
Definition proof_service
  (proof : option GetInclusionProofByHashResponse.t * option error)
  : Service (list Tree.t) :=
  scripted (toy_script proof (None, Some unavailable) (None, Some unavailable)).

Definition toy_getProof : Go (Response * option error) :=
  getProof toy_HashLeaf toy_UnmarshalBinary toy_VerifyInclusionProof
    toy_status_Code (serverInstance 1) [x61] 1.

(** Services whose [QueueLeaf], respectively [GetLeavesByHash], answers
    as given. *)
Definition queue_service (queue : option QueueLeafResponse.t * option error)
  : Service (list Tree.t) :=
  scripted (toy_script (None, Some unavailable) queue (None, Some unavailable)).

Definition leaves_service (leaves : option GetLeavesByHashResponse.t * option error)
  : Service (list Tree.t) :=
  scripted (toy_script (None, Some unavailable) (None, Some unavailable) leaves).

(** The reply to the second submission of a payload. *)
Definition toy_duplicate : QueueLeafResponse.t :=
  {| QueueLeafResponse.QueuedLeaf :=
       Some {| QueuedLogLeaf.Leaf := None;
               QueuedLogLeaf.Status :=
                 Some {| Status.Code := 6; Status.Message := "already exists" |} |} |}.

(** The specification's [ProvisionTree(kind)] names the two provisioning
    functions. *)
Inductive Kind : Type := LOG | MAP.

Definition kind_type (kind : Kind) : TreeType :=
  match kind with
  | LOG => TreeType_LOG
  | MAP => TreeType_MAP
  end.

Definition ProvisionTree (kind : Kind) (ctx : Context)
  : Go (option Tree.t * option error) :=
  match kind with
  | LOG => createAndInitTree ctx
  | MAP => createAndInitMap ctx
  end.

Definition is_QueueLeaf (c : Call) : bool :=
  match c with QueueLeaf _ _ => true | _ => false end.

Definition is_Logger_Infof (c : Call) : bool :=
  match c with Logger_Infof _ _ => true | _ => false end.

Definition is_cancel (c : Call) : bool :=
  match c with cancel _ => true | _ => false end.

(** The request either provisioning function sends to create its tree. *)
Definition create_request (kind : Kind) : CreateTreeRequest.t :=
  match kind with
  | LOG =>
      {| CreateTreeRequest.Tree :=
           Some (new_tree TreeType_LOG HashStrategy_RFC6962_SHA256);
         CreateTreeRequest.KeySpec := Some ecdsa_key_spec |}
  | MAP =>
      {| CreateTreeRequest.Tree :=
           Some (new_tree TreeType_MAP HashStrategy_CONIKS_SHA256);
         CreateTreeRequest.KeySpec := Some ecdsa_key_spec |}
  end.

(** The initialization call that follows the creation: [client.InitLog]
    for a log, [client.InitMap] for a map. *)
Definition init_call (kind : Kind) (ctx : Context) (t : option Tree.t) : Call :=
  match kind with
  | LOG => InitLog ctx t
  | MAP => InitMap ctx t
  end.

(** The answer of a service to that call. *)
Definition serve_init {St : Type} (srv : Service St) (kind : Kind) (ctx : Context)
  (t : option Tree.t) (st : St) : option error * St :=
  match kind with
  | LOG => srv (InitLog ctx t) st
  | MAP => srv (InitMap ctx t) st
  end.

(** A service with a configurable root reply; its other log RPCs fail. *)
Definition root_service
  (reply : option GetLatestSignedLogRootResponse.t * option error)
  : Service (list Tree.t) :=
  scripted {| on_GetLatestSignedLogRoot := reply;
              on_GetInclusionProofByHash := (None, Some unavailable);
              on_QueueLeaf := (None, Some unavailable);
              on_GetLeavesByHash := (None, Some unavailable) |}.

(** An admin service with fixed replies; its state counts the calls it
    has answered. *)
Definition admin_service
  (listing : option ListTreesResponse.t * option error)
  (created : option Tree.t * option error)
  (initialized : option error) : Service nat :=
  fun c =>
    match c as c' return nat -> Reply c' * nat with
    | GetLatestSignedLogRoot _ _ => fun n => ((None, Some unavailable), S n)
    | GetInclusionProofByHash _ _ => fun n => ((None, Some unavailable), S n)
    | QueueLeaf _ _ => fun n => ((None, Some unavailable), S n)
    | GetLeavesByHash _ _ => fun n => ((None, Some unavailable), S n)
    | ListTrees _ _ => fun n => (listing, S n)
    | CreateTree _ _ => fun n => (created, S n)
    | InitLog _ _ => fun n => (initialized, S n)
    | InitMap _ _ => fun n => (initialized, S n)
    | Logger_Infof _ _ => fun n => (tt, S n)
    | Logger_Fatal _ => fun n => (tt, S n)
    | fmt_Println _ => fun n => (tt, S n)
    | cancel _ => fun n => (tt, S n)
    end.

Definition toy_listing (trees : list Tree.t)
  : option ListTreesResponse.t * option error :=
  (Some {| ListTreesResponse.Tree := trees |}, None).

(** * Properties *)

(** ** [strings.Contains] finds exactly the substrings *)

Lemma prefix_iff_append (p s : string) :
  String.prefix p s = true <-> exists r, s = (p ++ r)%string.
Proof.
  revert s. induction p as [|a p IH]; intros s.
  - destruct s; simpl; split; eauto.
  - destruct s as [|b s]; cbn [String.prefix append].
    + split; [discriminate | intros [r Hr]; discriminate].
    + destruct (ascii_dec a b) as [->|Hab].
      * rewrite IH. split; intros [r Hr]; exists r.
        -- now rewrite Hr.
        -- now inversion Hr.
      * split; [discriminate | intros [r Hr]; inversion Hr; subst; now elim Hab].
Qed.

Lemma Contains_iff_substring (s substr : string) :
  strings_Contains s substr = true <->
  exists l r, s = (l ++ substr ++ r)%string.
Proof.
  induction s as [|a s IH].
  - cbn [strings_Contains]. rewrite orb_false_r, prefix_iff_append. split.
    + intros [r Hr]. exists EmptyString, r. exact Hr.
    + intros [l [r Hr]]. destruct l; [exists r; exact Hr | discriminate].
  - cbn [strings_Contains]. rewrite orb_true_iff, IH, prefix_iff_append. split.
    + intros [[r Hr] | [l [r Hr]]].
      * exists EmptyString, r. exact Hr.
      * exists (String a l), r. simpl. now rewrite Hr.
    + intros [l [r Hr]]. destruct l as [|b l].
      * left. exists r. exact Hr.
      * right. exists l, r. simpl in Hr. now inversion Hr.
Qed.

Section FileTypeProperties.

Variable http_DetectContentType : bytes -> string.
Variable viper_GetBool : string -> bool.

(** C8: when [rekor_server.enforce_text_only] is false, every payload,
    the empty one included, is allowed and the error is nil. *)
Theorem IsFileTypeAllowed_not_enforced (byteLeaf : bytes) :
  viper_GetBool "rekor_server.enforce_text_only" = false ->
  IsFileTypeAllowed http_DetectContentType viper_GetBool byteLeaf = (true, None).
Proof.
  intros Hflag. unfold IsFileTypeAllowed. now rewrite Hflag.
Qed.

(** C9: when [rekor_server.enforce_text_only] is true, a payload is allowed
    exactly when the content type detected for it has ["text/plain"] as a
    substring, it is refused otherwise, and the error is nil either way. *)
Theorem IsFileTypeAllowed_enforced (byteLeaf : bytes) :
  viper_GetBool "rekor_server.enforce_text_only" = true ->
  (fst (IsFileTypeAllowed http_DetectContentType viper_GetBool byteLeaf) = true <->
   exists l r, http_DetectContentType byteLeaf = (l ++ "text/plain" ++ r)%string)
  /\ (fst (IsFileTypeAllowed http_DetectContentType viper_GetBool byteLeaf) = false <->
      ~ exists l r, http_DetectContentType byteLeaf = (l ++ "text/plain" ++ r)%string)
  /\ snd (IsFileTypeAllowed http_DetectContentType viper_GetBool byteLeaf) = None.
Proof.
  intros Hflag. unfold IsFileTypeAllowed. rewrite Hflag. cbn [Bool.eqb].
  rewrite <- Contains_iff_substring.
  destruct (strings_Contains (http_DetectContentType byteLeaf) "text/plain");
    cbn [negb fst snd]; repeat split; try congruence; intros H; try discriminate.
Qed.

End FileTypeProperties.

(** C8 at the empty payload and at a PNG header. *)
Lemma IsFileTypeAllowed_not_enforced_witness :
  enforce_text_only false "rekor_server.enforce_text_only" = false
  /\ IsFileTypeAllowed toy_DetectContentType (enforce_text_only false) [] = (true, None)
  /\ IsFileTypeAllowed toy_DetectContentType (enforce_text_only false)
       [x89; x50; x4e; x47] = (true, None).
Proof.
  split; [reflexivity|].
  split; apply (IsFileTypeAllowed_not_enforced toy_DetectContentType
                  (enforce_text_only false)); reflexivity.
Defined.

(** C9 at the payload ["hello world"]. *)
Lemma IsFileTypeAllowed_enforced_witness :
  enforce_text_only true "rekor_server.enforce_text_only" = true
  /\ (fst (IsFileTypeAllowed toy_DetectContentType (enforce_text_only true)
            (list_byte_of_string "hello world")) = true <->
      exists l r, toy_DetectContentType (list_byte_of_string "hello world")
                  = (l ++ "text/plain" ++ r)%string).
Proof.
  split; [reflexivity|].
  apply (IsFileTypeAllowed_enforced toy_DetectContentType (enforce_text_only true)
           (list_byte_of_string "hello world")); reflexivity.
Defined.

Example IsFileTypeAllowed_hello :
  IsFileTypeAllowed toy_DetectContentType (enforce_text_only true)
    (list_byte_of_string "hello world") = (true, None).
Proof. reflexivity. Qed.

Example IsFileTypeAllowed_png :
  IsFileTypeAllowed toy_DetectContentType (enforce_text_only true)
    [x89; x50; x4e; x47; x0d; x0a; x1a; x0a] = (false, None).
Proof. reflexivity. Qed.

(** ** Running composed functions *)

Section RunLemmas.

Context {St : Type} (srv : Service St).

Lemma run_bind {A B : Type} (m : Go A) (f : A -> Go B) (st : St) :
  run srv (bind m f) st =
  match run srv m st with
  | (Returned a, st1, tr1) =>
      let '(o, st2, tr2) := run srv (f a) st1 in (o, st2, tr1 ++ tr2)
  | (Panicked msg, st1, tr1) => (Panicked msg, st1, tr1)
  | (Exited code, st1, tr1) => (Exited code, st1, tr1)
  end.
Proof.
  revert st. induction m as [a|msg|code|c k IH]; intros st; cbn [bind run].
  - now destruct (run srv (f a) st) as [[o st2] tr2].
  - reflexivity.
  - reflexivity.
  - destruct (srv c st) as [x st']. rewrite IH.
    destruct (run srv (k x) st') as [[[a|msg|code] st1] tr1]; try reflexivity.
    now destruct (run srv (f a) st1) as [[o st2] tr2].
Qed.

Lemma run_call_bind {B : Type} (c : Call) (f : Reply c -> Go B) (st : St) :
  run srv (bind (call c) f) st =
  let (x, st') := srv c st in
  let '(o, st'', tr) := run srv (f x) st' in (o, st'', c :: tr).
Proof. reflexivity. Qed.

Lemma run_defer {R : Type} (d : Call) (body : Go R) (st : St) :
  run srv (defer d body) st =
  match run srv body st with
  | (Returned r, st1, tr1) => (Returned r, snd (srv d st1), tr1 ++ [d])
  | (Panicked msg, st1, tr1) => (Panicked msg, snd (srv d st1), tr1 ++ [d])
  | (Exited code, st1, tr1) => (Exited code, st1, tr1)
  end.
Proof.
  revert st. induction body as [r|msg|code|c k IH]; intros st; cbn [defer run].
  - now destruct (srv d st).
  - now destruct (srv d st).
  - reflexivity.
  - destruct (srv c st) as [x st']. rewrite IH.
    now destruct (run srv (k x) st') as [[[r|msg|code] st1] tr1].
Qed.

End RunLemmas.

(** ** The inclusion proof verifier *)

Section GetProofProperties.

Variable HashLeaf : bytes -> bytes.
Variable UnmarshalBinary : bytes -> LogRootV1.t + error.
Variable VerifyInclusionProof :
  Z -> Z -> list bytes -> bytes -> bytes -> option error.
Variable status_Code : option error -> codes.Code.

Context {St : Type} (srv : Service St).

(** [root] issues one request, under the background context. *)
Lemma run_root_trace (s : trillianclient) (st : St) :
  trace (run srv (root UnmarshalBinary s) st) =
  [GetLatestSignedLogRoot Background
     {| GetLatestSignedLogRootRequest.LogId := logID s |}].
Proof.
  unfold root. rewrite run_call_bind.
  destruct (srv _ st) as [[resp err] st1].
  destruct err as [e|]; [reflexivity|].
  destruct resp as [resp|]; [|reflexivity].
  destruct resp as [[slr|]]; [|reflexivity].
  cbn. now destruct (UnmarshalBinary (SignedLogRoot.LogRoot slr)).
Qed.

(** The logging loop always runs to its end and issues no request. *)
Lemma run_log_hashes (i j : Z) (hashes : list bytes) (st : St) :
  exists st' tr,
    run srv (log_hashes i j hashes) st = (Returned tt, st', tr)
    /\ Forall (fun c => rpc_context c = None) tr.
Proof.
  revert j st. induction hashes as [|hash rest IH]; intros j st.
  - exists st, []. split; [reflexivity | constructor].
  - cbn [log_hashes]. rewrite run_call_bind.
    destruct (srv _ st) as [x st1].
    destruct (IH (j + 1) st1) as (st' & tr & Hrun & Htr).
    rewrite Hrun. eexists _, _. split; [reflexivity|].
    constructor; [reflexivity | exact Htr].
Qed.

(** The verification loop returns the first failure and issues no
    request. *)
Lemma run_verify_proofs (root' : LogRootV1.t) (leafHash : bytes) (i : Z)
  (proofs : list Proof_.t) (st : St) :
  exists st' tr,
    run srv (verify_proofs VerifyInclusionProof root' leafHash i proofs) st
    = (Returned (first_failure VerifyInclusionProof root' leafHash proofs), st', tr)
    /\ Forall (fun c => rpc_context c = None) tr.
Proof.
  revert i st. induction proofs as [|proof rest IH]; intros i st.
  - exists st, []. split; [reflexivity | constructor].
  - cbn [verify_proofs first_failure]. rewrite run_bind.
    destruct (run_log_hashes i 0 (Proof_.GetHashes proof) st)
      as (st1 & tr1 & Hlog & Htr1).
    rewrite Hlog.
    destruct (verify_one VerifyInclusionProof root' leafHash proof) as [e|].
    + exists st1, (tr1 ++ []). split; [reflexivity|].
      now rewrite app_nil_r.
    + destruct (IH (i + 1) st1) as (st2 & tr2 & Hrun & Htr2).
      rewrite Hrun. exists st2, (tr1 ++ tr2). split; [reflexivity|].
      apply Forall_app. now split.
Qed.

Lemma first_failure_none (root' : LogRootV1.t) (leafHash : bytes)
  (proofs : list Proof_.t) :
  first_failure VerifyInclusionProof root' leafHash proofs = None <->
  Forall (fun p => verify_one VerifyInclusionProof root' leafHash p = None) proofs.
Proof.
  induction proofs as [|p rest IH]; cbn [first_failure].
  - split; [constructor | reflexivity].
  - destruct (verify_one VerifyInclusionProof root' leafHash p) as [e|] eqn:Hp.
    + split; [discriminate | intros H; inversion H; congruence].
    + rewrite IH. split; [now constructor | intros H; now inversion H].
Qed.

Lemma first_failure_some (root' : LogRootV1.t) (leafHash : bytes)
  (proofs : list Proof_.t) :
  Exists (fun p => verify_one VerifyInclusionProof root' leafHash p <> None) proofs ->
  exists e p,
    In p proofs
    /\ verify_one VerifyInclusionProof root' leafHash p = Some e
    /\ first_failure VerifyInclusionProof root' leafHash proofs = Some e.
Proof.
  induction proofs as [|q rest IH]; intros H; [inversion H|].
  cbn [first_failure].
  destruct (verify_one VerifyInclusionProof root' leafHash q) as [e|] eqn:Hq.
  - exists e, q. now repeat split; [left|..].
  - inversion H as [? ? Hq'|? ? Hrest]; subst; [congruence|].
    destruct (IH Hrest) as (e & p & Hin & Hp & Hff).
    exists e, p. repeat split; [now right | exact Hp | exact Hff].
Qed.

(** What a call of [getProof] does once the root has been fetched. *)
Lemma run_getProof (s : trillianclient) (byteValue : bytes) (tLogID : Z)
  (st st1 st2 : St) (tr1 : list Call) (root' : LogRootV1.t)
  (resp : option GetInclusionProofByHashResponse.t) (err : option error) :
  run srv (root UnmarshalBinary s) st = (Returned (root', None), st1, tr1) ->
  srv (GetInclusionProofByHash getProof_ctx
         (proof_request tLogID (HashLeaf byteValue) root')) st1
  = ((resp, err), st2) ->
  exists st3 tr3,
    run srv (getProof HashLeaf UnmarshalBinary VerifyInclusionProof status_Code
               s byteValue tLogID) st
    = (Returned
         match first_failure VerifyInclusionProof root' (HashLeaf byteValue)
                 (returned_proofs resp) with
         | Some e => (Response_zero, Some e)
         | None => ({| status := status_Code err; getLeafResult := None;
                       getProofResult := resp |}, None)
         end,
       st3,
       tr1 ++ GetInclusionProofByHash getProof_ctx
                (proof_request tLogID (HashLeaf byteValue) root')
           :: tr3 ++ [cancel getProof_ctx])
    /\ Forall (fun c => rpc_context c = None) tr3.
Proof.
  intros Hroot Hsrv. unfold getProof. rewrite run_defer, run_bind, Hroot.
  cbn iota beta. rewrite run_call_bind.
  fold getProof_ctx. fold (proof_request tLogID (HashLeaf byteValue) root').
  rewrite Hsrv. rewrite run_bind.
  assert (Hloop : exists st' tr,
             run srv match resp with
                     | Some r =>
                         verify_proofs VerifyInclusionProof root' (HashLeaf byteValue) 0
                           (GetInclusionProofByHashResponse.Proof_ r)
                     | None => Return None
                     end st2
             = (Returned (first_failure VerifyInclusionProof root' (HashLeaf byteValue)
                            (returned_proofs resp)), st', tr)
             /\ Forall (fun c => rpc_context c = None) tr).
  { destruct resp as [r|].
    - apply run_verify_proofs.
    - exists st2, []. split; [reflexivity | constructor]. }
  destruct Hloop as (st' & tr & Hloop & Htr). rewrite Hloop.
  exists (snd (srv (cancel getProof_ctx) st')), tr. split; [|exact Htr].
  destruct (first_failure VerifyInclusionProof root' (HashLeaf byteValue)
              (returned_proofs resp)); cbn [run];
    now rewrite app_nil_r, <- app_assoc.
Qed.

Lemma no_rpc_no_proof_fetch (tr : list Call) :
  Forall (fun c => rpc_context c = None) tr ->
  filter is_GetInclusionProofByHash tr = [].
Proof.
  induction 1 as [|c tr Hc _ IH]; [reflexivity|].
  cbn [filter]. rewrite IH. now destruct c.
Qed.

(** C1: when the root has been fetched and the reply to the proof request
    carries a proof that does not verify against that root, [getProof]
    returns the verifier's error for such a proof, with an empty
    [Response], whatever the error of the proof request was. *)
Theorem getProof_fails_on_unverified_proof
  (s : trillianclient) (byteValue : bytes) (tLogID : Z) (st st1 : St)
  (tr1 : list Call) (root' : LogRootV1.t)
  (resp : GetInclusionProofByHashResponse.t) (err : option error) :
  run srv (root UnmarshalBinary s) st = (Returned (root', None), st1, tr1) ->
  fst (srv (GetInclusionProofByHash getProof_ctx
              (proof_request tLogID (HashLeaf byteValue) root')) st1)
  = (Some resp, err) ->
  Exists (fun p => verify_one VerifyInclusionProof root' (HashLeaf byteValue) p <> None)
         (GetInclusionProofByHashResponse.Proof_ resp) ->
  exists e p,
    In p (GetInclusionProofByHashResponse.Proof_ resp)
    /\ verify_one VerifyInclusionProof root' (HashLeaf byteValue) p = Some e
    /\ outcome (run srv (getProof HashLeaf UnmarshalBinary VerifyInclusionProof
                           status_Code s byteValue tLogID) st)
       = Returned (Response_zero, Some e).
Proof.
  intros Hroot Hsrv Hbad.
  destruct (srv _ st1) as [reply st2] eqn:Hreply. cbn [fst] in Hsrv. subst reply.
  destruct (run_getProof s byteValue tLogID st st1 st2 tr1 root' _ _ Hroot Hreply)
    as (st3 & tr3 & Hrun & _).
  destruct (first_failure_some root' (HashLeaf byteValue) _ Hbad)
    as (e & p & Hin & Hp & Hff).
  exists e, p. repeat split; [exact Hin | exact Hp |].
  rewrite Hrun. cbn [returned_proofs]. now rewrite Hff.
Qed.

(** C2: when the root has been fetched and the reply to the proof request
    carries no proof (a nil response or an empty list), [getProof] returns
    that reply in a [Response], with a nil error. *)
Theorem getProof_without_proofs
  (s : trillianclient) (byteValue : bytes) (tLogID : Z) (st st1 : St)
  (tr1 : list Call) (root' : LogRootV1.t)
  (resp : option GetInclusionProofByHashResponse.t) (err : option error) :
  run srv (root UnmarshalBinary s) st = (Returned (root', None), st1, tr1) ->
  fst (srv (GetInclusionProofByHash getProof_ctx
              (proof_request tLogID (HashLeaf byteValue) root')) st1)
  = (resp, err) ->
  returned_proofs resp = [] ->
  outcome (run srv (getProof HashLeaf UnmarshalBinary VerifyInclusionProof
                      status_Code s byteValue tLogID) st)
  = Returned ({| status := status_Code err; getLeafResult := None;
                 getProofResult := resp |}, None).
Proof.
  intros Hroot Hsrv Hnone.
  destruct (srv _ st1) as [reply st2] eqn:Hreply. cbn [fst] in Hsrv. subst reply.
  destruct (run_getProof s byteValue tLogID st st1 st2 tr1 root' _ _ Hroot Hreply)
    as (st3 & tr3 & Hrun & _).
  rewrite Hrun, Hnone. reflexivity.
Qed.

(** C3, as the code has it: the first call of every [getProof] is the root
    request, issued under the background context, which never expires;
    every later RPC is a proof request issued under the context of 20
    seconds created on entry. *)
Theorem getProof_deadline_covers_proof_fetch_only
  (s : trillianclient) (byteValue : bytes) (tLogID : Z) (st : St) :
  (exists rest,
      trace (run srv (getProof HashLeaf UnmarshalBinary VerifyInclusionProof
                        status_Code s byteValue tLogID) st)
      = GetLatestSignedLogRoot Background
          {| GetLatestSignedLogRootRequest.LogId := logID s |} :: rest
      /\ Forall (fun c => match rpc_context c with
                           | Some ctx =>
                               is_GetInclusionProofByHash c = true
                               /\ ctx = getProof_ctx
                           | None => True
                           end) rest)
  /\ timeout_bound Background = None
  /\ timeout_bound getProof_ctx = Some (20 * time_Second).
Proof.
  split; [|split; reflexivity].
  pose proof (run_root_trace s st) as Htrace.
  destruct (run srv (root UnmarshalBinary s) st) as [[o st1] tr1] eqn:Hroot.
  cbn [trace snd] in Htrace. subst tr1.
  destruct o as [[root' [e|]]|msg|code].
  - unfold getProof. rewrite run_defer, run_bind, Hroot. cbn.
    eexists. split; [reflexivity|]. repeat constructor.
  - destruct (srv (GetInclusionProofByHash getProof_ctx
                     (proof_request tLogID (HashLeaf byteValue) root')) st1)
      as [[resp err] st2] eqn:Hreply.
    destruct (run_getProof s byteValue tLogID st st1 st2 _ root' _ _ Hroot Hreply)
      as (st3 & tr3 & Hrun & Htr3).
    rewrite Hrun. cbn [trace snd app]. eexists. split; [reflexivity|].
    constructor; [now split|].
    apply Forall_app. split.
    + eapply Forall_impl; [|exact Htr3]. cbn. intros c Hc. now rewrite Hc.
    + repeat constructor.
  - unfold getProof. rewrite run_defer, run_bind, Hroot. cbn.
    eexists. split; [reflexivity|]. repeat constructor.
  - unfold getProof. rewrite run_defer, run_bind, Hroot. cbn.
    eexists. split; [reflexivity|]. constructor.
Qed.

(** C4, as the code has it: when the proof request fails and every proof
    that came with the failure verifies (none does when the response is
    nil), [getProof] sends the request once and returns a nil error; the
    failure reaches the caller as the status code of the [Response]. *)
Theorem getProof_fetch_error_in_status
  (s : trillianclient) (byteValue : bytes) (tLogID : Z) (st st1 : St)
  (tr1 : list Call) (root' : LogRootV1.t)
  (resp : option GetInclusionProofByHashResponse.t) (e : error) :
  run srv (root UnmarshalBinary s) st = (Returned (root', None), st1, tr1) ->
  fst (srv (GetInclusionProofByHash getProof_ctx
              (proof_request tLogID (HashLeaf byteValue) root')) st1)
  = (resp, Some e) ->
  Forall (fun p => verify_one VerifyInclusionProof root' (HashLeaf byteValue) p = None)
         (returned_proofs resp) ->
  outcome (run srv (getProof HashLeaf UnmarshalBinary VerifyInclusionProof
                      status_Code s byteValue tLogID) st)
  = Returned ({| status := status_Code (Some e); getLeafResult := None;
                 getProofResult := resp |}, None)
  /\ filter is_GetInclusionProofByHash
       (trace (run srv (getProof HashLeaf UnmarshalBinary VerifyInclusionProof
                          status_Code s byteValue tLogID) st))
     = [GetInclusionProofByHash getProof_ctx
          (proof_request tLogID (HashLeaf byteValue) root')].
Proof.
  intros Hroot Hsrv Hok.
  destruct (srv _ st1) as [reply st2] eqn:Hreply. cbn [fst] in Hsrv. subst reply.
  destruct (run_getProof s byteValue tLogID st st1 st2 tr1 root' _ _ Hroot Hreply)
    as (st3 & tr3 & Hrun & Htr3).
  apply first_failure_none in Hok. rewrite Hrun, Hok. split; [reflexivity|].
  pose proof (run_root_trace s st) as Htrace. rewrite Hroot in Htrace.
  cbn [trace snd] in *. subst tr1.
  cbn [app filter is_GetInclusionProofByHash].
  now rewrite filter_app, (no_rpc_no_proof_fetch tr3 Htr3).
Qed.

End GetProofProperties.

(** *** [getProof] on the toy service *)

Example toy_getProof_verified :
  run (proof_service (toy_proofs [toy_good_proof], None)) toy_getProof []
  = (Returned ({| status := codes.OK; getLeafResult := None;
                  getProofResult := toy_proofs [toy_good_proof] |}, None),
     [],
     [GetLatestSignedLogRoot Background
        {| GetLatestSignedLogRootRequest.LogId := 1 |};
      GetInclusionProofByHash getProof_ctx
        (proof_request 1 [x00; x61] toy_decoded_root);
      Logger_Infof "Proof[%d],hash[%d] == %x\n"
        [ArgInt 0; ArgInt 0; ArgBytes [x00; x62]];
      cancel getProof_ctx]).
Proof. reflexivity. Qed.

(** C1 at a reply with two proofs, the second with a changed byte. *)
Lemma getProof_fails_on_unverified_proof_witness :
  exists e p,
    In p [toy_good_proof; toy_bad_proof]
    /\ verify_one toy_VerifyInclusionProof toy_decoded_root (toy_HashLeaf [x61]) p
       = Some e
    /\ outcome (run (proof_service (toy_proofs [toy_good_proof; toy_bad_proof], None))
                  toy_getProof [])
       = Returned (Response_zero, Some e).
Proof.
  apply (getProof_fails_on_unverified_proof
           toy_HashLeaf toy_UnmarshalBinary toy_VerifyInclusionProof toy_status_Code
           (proof_service (toy_proofs [toy_good_proof; toy_bad_proof], None))
           (serverInstance 1) [x61] 1 [] []
           [GetLatestSignedLogRoot Background
              {| GetLatestSignedLogRootRequest.LogId := 1 |}]
           toy_decoded_root
           {| GetInclusionProofByHashResponse.Proof_ := [toy_good_proof; toy_bad_proof];
              GetInclusionProofByHashResponse.SignedLogRoot := None |}
           None).
  - reflexivity.
  - reflexivity.
  - apply Exists_cons_tl, Exists_cons_hd. vm_compute. discriminate.
Defined.

(** C2 at a leaf the log does not know yet. *)
Lemma getProof_without_proofs_witness :
  outcome (run (proof_service (None, Some (errors_New "not found"))) toy_getProof [])
  = Returned ({| status := codes.NotFound; getLeafResult := None;
                 getProofResult := None |}, None).
Proof.
  apply (getProof_without_proofs
           toy_HashLeaf toy_UnmarshalBinary toy_VerifyInclusionProof toy_status_Code
           (proof_service (None, Some (errors_New "not found")))
           (serverInstance 1) [x61] 1 [] []
           [GetLatestSignedLogRoot Background
              {| GetLatestSignedLogRootRequest.LogId := 1 |}]
           toy_decoded_root None (Some (errors_New "not found"))).
  - reflexivity.
  - reflexivity.
  - reflexivity.
Defined.

(** C3 fails as stated: in a successful verification the root request goes
    out under a context that never expires. *)
Lemma getProof_root_fetch_unbounded :
  all_rpcs_bounded
    (trace (run (proof_service (toy_proofs [toy_good_proof], None)) toy_getProof []))
  = false
  /\ hd_error
       (trace (run (proof_service (toy_proofs [toy_good_proof], None)) toy_getProof []))
     = Some (GetLatestSignedLogRoot Background
               {| GetLatestSignedLogRootRequest.LogId := 1 |})
  /\ timeout_bound Background = None.
Proof. repeat split. Qed.

(** C4 fails as stated: the proof request fails, and [getProof] returns a
    nil error. *)
Lemma getProof_fetch_error_returned_as_success :
  fst (proof_service (None, Some unavailable)
         (GetInclusionProofByHash getProof_ctx
            (proof_request 1 (toy_HashLeaf [x61]) toy_decoded_root)) [])
  = (None, Some unavailable)
  /\ outcome (run (proof_service (None, Some unavailable)) toy_getProof [])
     = Returned ({| status := codes.Unknown; getLeafResult := None;
                    getProofResult := None |}, None).
Proof. split; reflexivity. Qed.

(** C4, as the code has it, at the same failure. *)
Lemma getProof_fetch_error_in_status_witness :
  outcome (run (proof_service (None, Some unavailable)) toy_getProof [])
  = Returned ({| status := toy_status_Code (Some unavailable); getLeafResult := None;
                 getProofResult := None |}, None)
  /\ filter is_GetInclusionProofByHash
       (trace (run (proof_service (None, Some unavailable)) toy_getProof []))
     = [GetInclusionProofByHash getProof_ctx
          (proof_request 1 (toy_HashLeaf [x61]) toy_decoded_root)].
Proof.
  apply (getProof_fetch_error_in_status
           toy_HashLeaf toy_UnmarshalBinary toy_VerifyInclusionProof toy_status_Code
           (proof_service (None, Some unavailable))
           (serverInstance 1) [x61] 1 [] []
           [GetLatestSignedLogRoot Background
              {| GetLatestSignedLogRootRequest.LogId := 1 |}]
           toy_decoded_root None unavailable).
  - reflexivity.
  - reflexivity.
  - constructor.
Defined.

(** ** Leaf ingestion and leaf lookup *)

Section LeafProperties.

Variable HashLeaf : bytes -> bytes.
Variable status_Code : option error -> codes.Code.

Context {St : Type} (srv : Service St).

(** C5, as the code has it: whenever the queueing RPC hands back a
    response, with or without an error, [addLeaf] returns the status code of
    the queued leaf and a nil error; an error of the RPC is printed and
    nothing else. *)
Theorem addLeaf_returns_queue_status
  (s : trillianclient) (byteValue : bytes) (tLogID : Z) (st : St)
  (resp : QueueLeafResponse.t) (err : option error) :
  fst (srv (QueueLeaf Background (queue_request byteValue tLogID)) st)
  = (Some resp, err) ->
  outcome (run srv (addLeaf s byteValue tLogID) st)
  = Returned ({| status := queued_code resp; getLeafResult := None;
                 getProofResult := None |}, None)
  /\ trace (run srv (addLeaf s byteValue tLogID) st)
     = QueueLeaf Background (queue_request byteValue tLogID)
       :: match err with
          | Some e => [fmt_Println [ArgError e]]
          | None => []
          end.
Proof.
  intros Hsrv. unfold addLeaf. rewrite run_call_bind.
  fold (queue_request byteValue tLogID).
  destruct (srv _ st) as [reply st1]. cbn [fst] in Hsrv. subst reply.
  destruct err as [e|]; cbn.
  - destruct (srv (fmt_Println [ArgError e]) st1). cbn. now split.
  - now split.
Qed.

(** C10 fails on the code: when the queueing RPC hands back a nil
    response, as it does whenever it fails, [addLeaf] panics on reading the
    queued leaf. *)
Theorem addLeaf_panics_on_nil_response
  (s : trillianclient) (byteValue : bytes) (tLogID : Z) (st : St)
  (err : option error) :
  fst (srv (QueueLeaf Background (queue_request byteValue tLogID)) st)
  = (None, err) ->
  outcome (run srv (addLeaf s byteValue tLogID) st) = Panicked nil_dereference.
Proof.
  intros Hsrv. unfold addLeaf. rewrite run_call_bind.
  fold (queue_request byteValue tLogID).
  destruct (srv _ st) as [reply st1]. cbn [fst] in Hsrv. subst reply.
  destruct err as [e|]; cbn.
  - now destruct (srv (fmt_Println [ArgError e]) st1).
  - reflexivity.
Qed.

(** C6, as the code has it: when the lookup RPC fails, [getLeaf] logs the
    error at the fatal level and the process exits, nothing being returned;
    when it succeeds, a reply without leaves included, [getLeaf] returns the
    reply with the status of a nil error, and a nil error. *)
Theorem getLeaf_exits_on_error_else_returns
  (s : trillianclient) (byteValue : bytes) (tlog_id : Z) (st : St) :
  match fst (srv (GetLeavesByHash Background
                    (leaves_request (HashLeaf byteValue) tlog_id)) st) with
  | (resp, Some e) =>
      outcome (run srv (getLeaf HashLeaf status_Code s byteValue tlog_id) st)
      = Exited 1
      /\ trace (run srv (getLeaf HashLeaf status_Code s byteValue tlog_id) st)
         = [GetLeavesByHash Background (leaves_request (HashLeaf byteValue) tlog_id);
            Logger_Fatal [ArgError e]]
  | (resp, None) =>
      outcome (run srv (getLeaf HashLeaf status_Code s byteValue tlog_id) st)
      = Returned ({| status := status_Code None; getLeafResult := resp;
                     getProofResult := None |}, None)
  end.
Proof.
  unfold getLeaf. rewrite run_call_bind.
  fold (leaves_request (HashLeaf byteValue) tlog_id).
  destruct (srv _ st) as [[resp [e|]] st1]; cbn.
  - destruct (srv (Logger_Fatal [ArgError e]) st1). cbn. now split.
  - reflexivity.
Qed.

End LeafProperties.

(** C5 fails as stated: the RPC reports an error, [addLeaf] prints it and
    returns a nil error; had the response been nil, [addLeaf] would not have
    returned at all. *)
Lemma addLeaf_swallows_transport_error :
  run (queue_service (Some {| QueueLeafResponse.QueuedLeaf := None |},
                      Some unavailable))
      (addLeaf (serverInstance 1) [x61] 1) []
  = (Returned ({| status := codes.OK; getLeafResult := None;
                  getProofResult := None |}, None),
     [],
     [QueueLeaf Background (queue_request [x61] 1);
      fmt_Println [ArgError unavailable]])
  /\ outcome (run (queue_service (None, Some unavailable))
                (addLeaf (serverInstance 1) [x61] 1) [])
     = Panicked nil_dereference.
Proof. split; reflexivity. Qed.

(** C5, as the code has it, at the second submission of a payload. *)
Lemma addLeaf_returns_queue_status_witness :
  outcome (run (queue_service (Some toy_duplicate, None))
             (addLeaf (serverInstance 1) [x61] 1) [])
  = Returned ({| status := codes.AlreadyExists; getLeafResult := None;
                 getProofResult := None |}, None)
  /\ trace (run (queue_service (Some toy_duplicate, None))
              (addLeaf (serverInstance 1) [x61] 1) [])
     = [QueueLeaf Background (queue_request [x61] 1)].
Proof.
  apply (addLeaf_returns_queue_status
           (queue_service (Some toy_duplicate, None))
           (serverInstance 1) [x61] 1 [] toy_duplicate None).
  reflexivity.
Defined.

(** C10 at an unreachable log service. *)
Lemma addLeaf_panics_on_nil_response_witness :
  outcome (run (queue_service (None, Some unavailable))
             (addLeaf (serverInstance 1) [x61] 1) [])
  = Panicked nil_dereference.
Proof.
  apply (addLeaf_panics_on_nil_response
           (queue_service (None, Some unavailable))
           (serverInstance 1) [x61] 1 [] (Some unavailable)).
  reflexivity.
Defined.

(** C6 fails as stated: the lookup RPC fails and the process exits. *)
Lemma getLeaf_exits_on_lookup_failure :
  run (leaves_service (None, Some unavailable))
      (getLeaf toy_HashLeaf toy_status_Code (serverInstance 1) [x61] 1) []
  = (Exited 1, [],
     [GetLeavesByHash Background (leaves_request [x00; x61] 1);
      Logger_Fatal [ArgError unavailable]]).
Proof. reflexivity. Qed.

Example getLeaf_not_found :
  outcome (run (leaves_service
                  (Some {| GetLeavesByHashResponse.Leaves := [];
                           GetLeavesByHashResponse.SignedLogRoot := None |}, None))
             (getLeaf toy_HashLeaf toy_status_Code (serverInstance 1) [x61] 1) [])
  = Returned ({| status := codes.OK;
                 getLeafResult :=
                   Some {| GetLeavesByHashResponse.Leaves := [];
                           GetLeavesByHashResponse.SignedLogRoot := None |};
                 getProofResult := None |}, None).
Proof. reflexivity. Qed.

(** ** The tree provisioner *)

Lemma TreeType_eqb_eq (a b : TreeType) : TreeType_eqb a b = true <-> a = b.
Proof. destruct a, b; split; intros H; try reflexivity; discriminate. Qed.

(** The scan of the provisioning functions stops at the first tree of the
    wanted type. *)
Lemma find_first_of_type (type : TreeType) (trees : list Tree.t) :
  Exists (fun t => Tree.TreeType t = type) trees ->
  exists before t after,
    trees = before ++ t :: after
    /\ Tree.TreeType t = type
    /\ Forall (fun t' => Tree.TreeType t' <> type) before
    /\ find (fun t => TreeType_eqb (Tree.TreeType t) type) trees = Some t.
Proof.
  induction trees as [|t0 rest IH]; intros H; [inversion H|].
  cbn [find]. destruct (TreeType_eqb (Tree.TreeType t0) type) eqn:Heq.
  - apply TreeType_eqb_eq in Heq.
    exists [], t0, rest. repeat split; [exact Heq | constructor].
  - assert (Hne : Tree.TreeType t0 <> type).
    { intros Heq'. apply TreeType_eqb_eq in Heq'. congruence. }
    inversion H as [? ? H0|? ? Hrest]; subst; [contradiction|].
    destruct (IH Hrest) as (before & t & after & -> & Ht & Hbefore & Hfind).
    exists (t0 :: before), t, after. repeat split; auto.
Qed.

Section ProvisionTreeProperties.

Context {St : Type} (srv : Service St).

Lemma run_ProvisionTree_existing (kind : Kind) (ctx : Context) (st st1 : St)
  (trees : list Tree.t) (t : Tree.t) :
  srv (ListTrees ctx ListTreesRequest.zero) st
  = ((Some {| ListTreesResponse.Tree := trees |}, None), st1) ->
  find (fun t => TreeType_eqb (Tree.TreeType t) (kind_type kind)) trees = Some t ->
  run srv (ProvisionTree kind ctx) st
  = (Returned (Some t, None), st1, [ListTrees ctx ListTreesRequest.zero]).
Proof.
  intros Hsrv Hfind.
  destruct kind; cbn [ProvisionTree kind_type] in *;
    [unfold createAndInitTree | unfold createAndInitMap];
    rewrite run_call_bind, Hsrv; cbn; now rewrite Hfind.
Qed.

(** C7: when the service lists at least one tree of the requested kind,
    provisioning returns the first such tree after the single listing
    request, without a create or an initialize request; a second call for
    which the service lists the same trees returns the same tree. *)
Theorem ProvisionTree_idempotent
  (kind : Kind) (ctx : Context) (st st1 : St) (trees : list Tree.t) :
  srv (ListTrees ctx ListTreesRequest.zero) st
  = ((Some {| ListTreesResponse.Tree := trees |}, None), st1) ->
  fst (srv (ListTrees ctx ListTreesRequest.zero) st1)
  = (Some {| ListTreesResponse.Tree := trees |}, None) ->
  Exists (fun t => Tree.TreeType t = kind_type kind) trees ->
  exists before t after,
    trees = before ++ t :: after
    /\ Tree.TreeType t = kind_type kind
    /\ Forall (fun t' => Tree.TreeType t' <> kind_type kind) before
    /\ run srv (ProvisionTree kind ctx) st
       = (Returned (Some t, None), st1, [ListTrees ctx ListTreesRequest.zero])
    /\ outcome (run srv (twice (ProvisionTree kind ctx)) st)
       = Returned ((Some t, None), (Some t, None))
    /\ trace (run srv (twice (ProvisionTree kind ctx)) st)
       = [ListTrees ctx ListTreesRequest.zero; ListTrees ctx ListTreesRequest.zero].
Proof.
  intros Hfirst Hsecond Hsome.
  destruct (find_first_of_type _ _ Hsome)
    as (before & t & after & Htrees & Ht & Hbefore & Hfind).
  exists before, t, after.
  destruct (srv (ListTrees ctx ListTreesRequest.zero) st1) as [reply st2] eqn:Hsrv2.
  cbn [fst] in Hsecond. subst reply.
  pose proof (run_ProvisionTree_existing kind ctx st st1 trees t Hfirst Hfind)
    as Hrun1.
  pose proof (run_ProvisionTree_existing kind ctx st1 st2 trees t Hsrv2 Hfind)
    as Hrun2.
  repeat split; try assumption.
  - unfold twice. rewrite run_bind, Hrun1, run_bind, Hrun2. reflexivity.
  - unfold twice. rewrite run_bind, Hrun1, run_bind, Hrun2. reflexivity.
Qed.

End ProvisionTreeProperties.

(** C7 on a service that lists a map tree and then two log trees. *)
Lemma ProvisionTree_idempotent_witness :
  exists before t after,
    [toy_map_tree; toy_log_tree; with_id 8 toy_log_tree] = before ++ t :: after
    /\ Tree.TreeType t = TreeType_LOG
    /\ Forall (fun t' => Tree.TreeType t' <> TreeType_LOG) before
    /\ run (queue_service (None, None)) (ProvisionTree LOG Background)
         [toy_map_tree; toy_log_tree; with_id 8 toy_log_tree]
       = (Returned (Some t, None),
          [toy_map_tree; toy_log_tree; with_id 8 toy_log_tree],
          [ListTrees Background ListTreesRequest.zero])
    /\ outcome (run (queue_service (None, None)) (twice (ProvisionTree LOG Background))
                  [toy_map_tree; toy_log_tree; with_id 8 toy_log_tree])
       = Returned ((Some t, None), (Some t, None))
    /\ trace (run (queue_service (None, None)) (twice (ProvisionTree LOG Background))
                [toy_map_tree; toy_log_tree; with_id 8 toy_log_tree])
       = [ListTrees Background ListTreesRequest.zero;
          ListTrees Background ListTreesRequest.zero].
Proof.
  apply (ProvisionTree_idempotent (queue_service (None, None)) LOG Background
           [toy_map_tree; toy_log_tree; with_id 8 toy_log_tree]
           [toy_map_tree; toy_log_tree; with_id 8 toy_log_tree]
           [toy_map_tree; toy_log_tree; with_id 8 toy_log_tree]).
  - reflexivity.
  - reflexivity.
  - apply Exists_cons_tl, Exists_cons_hd. reflexivity.
Defined.

Example createAndInitTree_reuses :
  outcome (run (queue_service (None, None)) (createAndInitTree Background)
             [toy_map_tree; toy_log_tree; with_id 8 toy_log_tree])
  = Returned (Some toy_log_tree, None).
Proof. reflexivity. Qed.

(** On a service without trees the first call creates and initializes a
    tree, and the second call finds it. *)
Example createAndInitTree_creates_then_reuses :
  run (queue_service (None, None)) (twice (createAndInitTree Background)) []
  = (Returned
       ((Some (with_id 1 (new_tree TreeType_LOG HashStrategy_RFC6962_SHA256)), None),
        (Some (with_id 1 (new_tree TreeType_LOG HashStrategy_RFC6962_SHA256)), None)),
     [with_id 1 (new_tree TreeType_LOG HashStrategy_RFC6962_SHA256)],
     [ListTrees Background ListTreesRequest.zero;
      CreateTree Background
        {| CreateTreeRequest.Tree :=
             Some (new_tree TreeType_LOG HashStrategy_RFC6962_SHA256);
           CreateTreeRequest.KeySpec := Some ecdsa_key_spec |};
      InitLog Background
        (Some (with_id 1 (new_tree TreeType_LOG HashStrategy_RFC6962_SHA256)));
      ListTrees Background ListTreesRequest.zero]).
Proof. reflexivity. Qed.

Example createAndInitMap_creates :
  outcome (run (queue_service (None, None)) (createAndInitMap Background)
             [toy_log_tree])
  = Returned (Some (with_id 2 (new_tree TreeType_MAP HashStrategy_CONIKS_SHA256)), None).
Proof. reflexivity. Qed.

(** * Further properties of the client *)

(** ** The log root accessor *)

Section RootProperties.

Variable UnmarshalBinary : bytes -> LogRootV1.t + error.

Context {St : Type} (srv : Service St).

(** What [root] does, by the reply to its request. *)
Lemma run_root (s : trillianclient) (st : St) :
  run srv (root UnmarshalBinary s) st
  = let (reply, st1) :=
      srv (GetLatestSignedLogRoot Background
             {| GetLatestSignedLogRootRequest.LogId := logID s |}) st in
    (match snd reply with
     | Some e => Returned (LogRootV1.zero, Some e)
     | None =>
         match fst reply with
         | Some resp =>
             match GetLatestSignedLogRootResponse.SignedLogRoot resp with
             | Some slr =>
                 match UnmarshalBinary (SignedLogRoot.LogRoot slr) with
                 | inl root' => Returned (root', None)
                 | inr e => Returned (LogRootV1.zero, Some e)
                 end
             | None => Panicked nil_dereference
             end
         | None => Panicked nil_dereference
         end
     end,
     st1,
     [GetLatestSignedLogRoot Background
        {| GetLatestSignedLogRootRequest.LogId := logID s |}]).
Proof.
  unfold root. rewrite run_call_bind.
  destruct (srv _ st) as [[resp [e|]] st1]; [reflexivity|].
  destruct resp as [[[slr|]]|]; try reflexivity.
  cbn. now destruct (UnmarshalBinary (SignedLogRoot.LogRoot slr)).
Qed.

(** X1: when the root request fails, [root] returns the error of the RPC
    together with the zero root, and decodes nothing. *)
Theorem root_returns_transport_error
  (s : trillianclient) (st : St)
  (resp : option GetLatestSignedLogRootResponse.t) (e : error) :
  fst (srv (GetLatestSignedLogRoot Background
              {| GetLatestSignedLogRootRequest.LogId := logID s |}) st)
  = (resp, Some e) ->
  outcome (run srv (root UnmarshalBinary s) st) = Returned (LogRootV1.zero, Some e).
Proof.
  intros Hsrv. rewrite run_root.
  destruct (srv _ st) as [reply st1]. cbn [fst] in Hsrv. subst reply.
  reflexivity.
Qed.

(** X2: when the root request succeeds with a signed root, [root] returns
    the decoded root with a nil error if the bytes decode, and the decoding
    error with the zero root if they do not. *)
Theorem root_decodes_signed_root
  (s : trillianclient) (st : St) (slr : SignedLogRoot.t) :
  fst (srv (GetLatestSignedLogRoot Background
              {| GetLatestSignedLogRootRequest.LogId := logID s |}) st)
  = (Some {| GetLatestSignedLogRootResponse.SignedLogRoot := Some slr |}, None) ->
  outcome (run srv (root UnmarshalBinary s) st)
  = Returned match UnmarshalBinary (SignedLogRoot.LogRoot slr) with
             | inl root' => (root', None)
             | inr e => (LogRootV1.zero, Some e)
             end.
Proof.
  intros Hsrv. rewrite run_root.
  destruct (srv _ st) as [reply st1]. cbn [fst] in Hsrv. subst reply.
  cbn. now destruct (UnmarshalBinary (SignedLogRoot.LogRoot slr)).
Qed.

(** X3: when the root request reports no error but hands back a nil
    response, or a response without a signed root, [root] panics on a nil
    dereference. *)
Theorem root_panics_without_signed_root
  (s : trillianclient) (st : St)
  (resp : option GetLatestSignedLogRootResponse.t) :
  fst (srv (GetLatestSignedLogRoot Background
              {| GetLatestSignedLogRootRequest.LogId := logID s |}) st)
  = (resp, None) ->
  resp = None
  \/ resp = Some {| GetLatestSignedLogRootResponse.SignedLogRoot := None |} ->
  outcome (run srv (root UnmarshalBinary s) st) = Panicked nil_dereference.
Proof.
  intros Hsrv Hresp. rewrite run_root.
  destruct (srv _ st) as [reply st1]. cbn [fst] in Hsrv. subst reply.
  now destruct Hresp as [-> | ->].
Qed.

(** [root] never ends the process. *)
Lemma root_never_exits (s : trillianclient) (st : St) (code : Z) :
  outcome (run srv (root UnmarshalBinary s) st) <> Exited code.
Proof.
  rewrite run_root. destruct (srv _ st) as [[resp [e|]] st1]; [discriminate|].
  destruct resp as [[[slr|]]|]; try discriminate.
  cbn. now destruct (UnmarshalBinary (SignedLogRoot.LogRoot slr)).
Qed.

End RootProperties.

Lemma root_returns_transport_error_witness :
  outcome (run (root_service (None, Some unavailable))
             (root toy_UnmarshalBinary (serverInstance 1)) [])
  = Returned (LogRootV1.zero, Some unavailable).
Proof.
  apply (root_returns_transport_error toy_UnmarshalBinary
           (root_service (None, Some unavailable)) (serverInstance 1) [] None).
  reflexivity.
Defined.

(** X2 at a reply whose root bytes are empty: they do not decode. *)
Lemma root_decodes_signed_root_witness :
  outcome (run (root_service
                  (Some {| GetLatestSignedLogRootResponse.SignedLogRoot :=
                             Some {| SignedLogRoot.LogRoot := [];
                                     SignedLogRoot.LogRootSignature := [] |} |},
                   None))
             (root toy_UnmarshalBinary (serverInstance 1)) [])
  = Returned (LogRootV1.zero, Some (errors_New "logRootBytes too short")).
Proof.
  apply (root_decodes_signed_root toy_UnmarshalBinary
           (root_service
              (Some {| GetLatestSignedLogRootResponse.SignedLogRoot :=
                         Some {| SignedLogRoot.LogRoot := [];
                                 SignedLogRoot.LogRootSignature := [] |} |},
               None))
           (serverInstance 1) []
           {| SignedLogRoot.LogRoot := []; SignedLogRoot.LogRootSignature := [] |}).
  reflexivity.
Defined.

Lemma root_panics_without_signed_root_witness :
  outcome (run (root_service
                  (Some {| GetLatestSignedLogRootResponse.SignedLogRoot := None |},
                   None))
             (root toy_UnmarshalBinary (serverInstance 1)) [])
  = Panicked nil_dereference.
Proof.
  apply (root_panics_without_signed_root toy_UnmarshalBinary
           (root_service
              (Some {| GetLatestSignedLogRootResponse.SignedLogRoot := None |}, None))
           (serverInstance 1) []
           (Some {| GetLatestSignedLogRootResponse.SignedLogRoot := None |})).
  - reflexivity.
  - right. reflexivity.
Defined.

Example root_decodes_toy_root :
  outcome (run (root_service toy_root_reply)
             (root toy_UnmarshalBinary (serverInstance 1)) [])
  = Returned (toy_decoded_root, None).
Proof. reflexivity. Qed.

(** ** More on the inclusion proof verifier *)

Section GetProofFurther.

Variable HashLeaf : bytes -> bytes.
Variable UnmarshalBinary : bytes -> LogRootV1.t + error.
Variable VerifyInclusionProof :
  Z -> Z -> list bytes -> bytes -> bytes -> option error.
Variable status_Code : option error -> codes.Code.

Context {St : Type} (srv : Service St).

(** The two loops only ever call the logger. *)
Lemma log_hashes_only_logs (i j : Z) (hashes : list bytes) (st : St) :
  Forall (fun c => is_Logger_Infof c = true)
         (trace (run srv (log_hashes i j hashes) st)).
Proof.
  revert j st. induction hashes as [|hash rest IH]; intros j st.
  - constructor.
  - cbn [log_hashes]. rewrite run_call_bind.
    destruct (srv _ st) as [x st1]. specialize (IH (j + 1) st1).
    destruct (run srv (log_hashes i (j + 1) rest) st1) as [[o st2] tr].
    constructor; [reflexivity | exact IH].
Qed.

Lemma verify_proofs_only_logs (root' : LogRootV1.t) (leafHash : bytes) (i : Z)
  (proofs : list Proof_.t) (st : St) :
  Forall (fun c => is_Logger_Infof c = true)
         (trace (run srv (verify_proofs VerifyInclusionProof root' leafHash i proofs)
                   st)).
Proof.
  revert i st. induction proofs as [|proof rest IH]; intros i st.
  - constructor.
  - cbn [verify_proofs]. rewrite run_bind.
    pose proof (log_hashes_only_logs i 0 (Proof_.GetHashes proof) st) as Hlog.
    destruct (run_log_hashes srv i 0 (Proof_.GetHashes proof) st)
      as (st1 & tr1 & Hrun & _).
    rewrite Hrun in *. cbn [trace snd] in Hlog.
    destruct (verify_one VerifyInclusionProof root' leafHash proof) as [e|].
    + cbn. now rewrite app_nil_r.
    + specialize (IH (i + 1) st1).
      destruct (run srv (verify_proofs VerifyInclusionProof root' leafHash (i + 1) rest)
                  st1) as [[o st2] tr2].
      cbn [trace snd] in *. apply Forall_app. now split.
Qed.

(** X8: the verification loop stops at the first proof that fails: what
    follows that proof in the reply is neither logged nor verified, so the
    loop runs exactly as if the reply ended there. *)
Theorem verify_proofs_stops_at_failure
  (root' : LogRootV1.t) (leafHash : bytes) (i : Z)
  (before after : list Proof_.t) (bad : Proof_.t) (st : St) :
  verify_one VerifyInclusionProof root' leafHash bad <> None ->
  run srv (verify_proofs VerifyInclusionProof root' leafHash i
             (before ++ bad :: after)) st
  = run srv (verify_proofs VerifyInclusionProof root' leafHash i
               (before ++ [bad])) st.
Proof.
  intros Hbad. revert i st.
  induction before as [|p before IH]; intros i st; cbn [app verify_proofs].
  - rewrite !run_bind.
    destruct (run srv (log_hashes i 0 (Proof_.GetHashes bad)) st)
      as [[[[]|msg|code] st1] tr1]; try reflexivity.
    destruct (verify_one VerifyInclusionProof root' leafHash bad);
      [reflexivity | contradiction].
  - rewrite !run_bind.
    destruct (run srv (log_hashes i 0 (Proof_.GetHashes p)) st)
      as [[[[]|msg|code] st1] tr1]; try reflexivity.
    destruct (verify_one VerifyInclusionProof root' leafHash p);
      [reflexivity|]. now rewrite IH.
Qed.

(** X4: when the root cannot be fetched or decoded, [getProof] returns
    that error with an empty [Response]; the proof is never requested, and
    the deferred cancel still runs. *)
Theorem getProof_stops_on_root_error
  (s : trillianclient) (byteValue : bytes) (tLogID : Z) (st st1 : St)
  (tr1 : list Call) (root' : LogRootV1.t) (e : error) :
  run srv (root UnmarshalBinary s) st = (Returned (root', Some e), st1, tr1) ->
  outcome (run srv (getProof HashLeaf UnmarshalBinary VerifyInclusionProof
                      status_Code s byteValue tLogID) st)
  = Returned (Response_zero, Some e)
  /\ trace (run srv (getProof HashLeaf UnmarshalBinary VerifyInclusionProof
                       status_Code s byteValue tLogID) st)
     = [GetLatestSignedLogRoot Background
          {| GetLatestSignedLogRootRequest.LogId := logID s |};
        cancel getProof_ctx].
Proof.
  intros Hroot.
  pose proof (run_root_trace UnmarshalBinary srv s st) as Htrace.
  rewrite Hroot in Htrace. cbn [trace snd] in Htrace. subst tr1.
  unfold getProof. rewrite run_defer, run_bind, Hroot. cbn. now split.
Qed.

(** X5: when the root is fetched, the proof request succeeds and every
    returned proof verifies against that root, [getProof] returns the
    response of the service unchanged, with the status of a nil error and a
    nil error. *)
Theorem getProof_returns_verified_proofs
  (s : trillianclient) (byteValue : bytes) (tLogID : Z) (st st1 : St)
  (tr1 : list Call) (root' : LogRootV1.t)
  (resp : GetInclusionProofByHashResponse.t) :
  run srv (root UnmarshalBinary s) st = (Returned (root', None), st1, tr1) ->
  fst (srv (GetInclusionProofByHash getProof_ctx
              (proof_request tLogID (HashLeaf byteValue) root')) st1)
  = (Some resp, None) ->
  Forall (fun p => verify_one VerifyInclusionProof root' (HashLeaf byteValue) p = None)
         (GetInclusionProofByHashResponse.Proof_ resp) ->
  outcome (run srv (getProof HashLeaf UnmarshalBinary VerifyInclusionProof
                      status_Code s byteValue tLogID) st)
  = Returned ({| status := status_Code None; getLeafResult := None;
                 getProofResult := Some resp |}, None).
Proof.
  intros Hroot Hsrv Hok.
  destruct (srv _ st1) as [reply st2] eqn:Hreply. cbn [fst] in Hsrv. subst reply.
  destruct (run_getProof HashLeaf UnmarshalBinary VerifyInclusionProof status_Code
              srv s byteValue tLogID st st1 st2 tr1 root' _ _ Hroot Hreply)
    as (st3 & tr3 & Hrun & _).
  apply first_failure_none in Hok. rewrite Hrun. cbn [returned_proofs].
  now rewrite Hok.
Qed.

(** The calls of [getProof] before the deferred one. *)
Lemma getProof_trace_shape (s : trillianclient) (byteValue : bytes) (tLogID : Z)
  (st : St) :
  exists tr,
    trace (run srv (getProof HashLeaf UnmarshalBinary VerifyInclusionProof
                      status_Code s byteValue tLogID) st)
    = tr ++ [cancel getProof_ctx]
    /\ filter is_cancel tr = [].
Proof.
  pose proof (run_root_trace UnmarshalBinary srv s st) as Htrace.
  pose proof (root_never_exits UnmarshalBinary srv s st) as Hexit.
  destruct (run srv (root UnmarshalBinary s) st) as [[o st1] tr1] eqn:Hroot.
  cbn [trace snd outcome fst] in *. subst tr1.
  destruct o as [[root' [e|]]|msg|code].
  - unfold getProof. rewrite run_defer, run_bind, Hroot. cbn.
    eexists [_]. split; reflexivity.
  - destruct (srv (GetInclusionProofByHash getProof_ctx
                     (proof_request tLogID (HashLeaf byteValue) root')) st1)
      as [[resp err] st2] eqn:Hreply.
    unfold getProof. rewrite run_defer, run_bind, Hroot. cbn iota beta.
    rewrite run_call_bind.
    fold getProof_ctx. fold (proof_request tLogID (HashLeaf byteValue) root').
    rewrite Hreply, run_bind.
    assert (Hloop : exists r st3 tr3,
              run srv match resp with
                      | Some r =>
                          verify_proofs VerifyInclusionProof root'
                            (HashLeaf byteValue) 0
                            (GetInclusionProofByHashResponse.Proof_ r)
                      | None => Return None
                      end st2 = (Returned r, st3, tr3)
              /\ Forall (fun c => is_Logger_Infof c = true) tr3).
    { destruct resp as [r|].
      - pose proof (verify_proofs_only_logs root' (HashLeaf byteValue) 0
                      (GetInclusionProofByHashResponse.Proof_ r) st2) as Hlogs.
        destruct (run_verify_proofs VerifyInclusionProof srv root'
                    (HashLeaf byteValue) 0
                    (GetInclusionProofByHashResponse.Proof_ r) st2)
          as (st3 & tr3 & Hrun & _).
        rewrite Hrun in Hlogs. eauto.
      - exists None, st2, []. split; [reflexivity | constructor]. }
    assert (Hnone : forall tr, Forall (fun c => is_Logger_Infof c = true) tr ->
                               filter is_cancel tr = []).
    { induction 1 as [|c tr Hc _ IH]; [reflexivity|].
      cbn [filter]. rewrite IH. now destruct c. }
    destruct Hloop as (r & st3 & tr3 & Hrun & Hlogs). rewrite Hrun.
    apply Hnone in Hlogs.
    exists (GetLatestSignedLogRoot Background
              {| GetLatestSignedLogRootRequest.LogId := logID s |}
            :: GetInclusionProofByHash getProof_ctx
                 (proof_request tLogID (HashLeaf byteValue) root') :: tr3).
    split; [|exact Hlogs].
    destruct r as [e|]; cbn; now rewrite ?app_nil_r.
  - unfold getProof. rewrite run_defer, run_bind, Hroot. cbn.
    eexists [_]. split; reflexivity.
  - now elim (Hexit code).
Qed.

(** X6: in every call of [getProof] the cancel function of the deadline
    context is called once, as the last thing the function does, whether it
    returns or panics. *)
Theorem getProof_always_cancels (s : trillianclient) (byteValue : bytes)
  (tLogID : Z) (st : St) :
  filter is_cancel
    (trace (run srv (getProof HashLeaf UnmarshalBinary VerifyInclusionProof
                       status_Code s byteValue tLogID) st))
  = [cancel getProof_ctx]
  /\ last (trace (run srv (getProof HashLeaf UnmarshalBinary VerifyInclusionProof
                             status_Code s byteValue tLogID) st))
          (cancel Background)
     = cancel getProof_ctx.
Proof.
  destruct (getProof_trace_shape s byteValue tLogID st) as (tr & -> & Hnone).
  split.
  - now rewrite filter_app, Hnone.
  - apply last_last.
Qed.

(** X7: [getProof] never ends the process, and it panics exactly when
    [root] does; in every other case it returns to its caller. *)
Theorem getProof_panics_only_with_root (s : trillianclient) (byteValue : bytes)
  (tLogID : Z) (st : St) :
  match outcome (run srv (root UnmarshalBinary s) st) with
  | Returned _ =>
      exists r,
        outcome (run srv (getProof HashLeaf UnmarshalBinary VerifyInclusionProof
                            status_Code s byteValue tLogID) st) = Returned r
  | Panicked msg =>
      outcome (run srv (getProof HashLeaf UnmarshalBinary VerifyInclusionProof
                          status_Code s byteValue tLogID) st) = Panicked msg
  | Exited _ => False
  end.
Proof.
  pose proof (root_never_exits UnmarshalBinary srv s st) as Hexit.
  destruct (run srv (root UnmarshalBinary s) st) as [[o st1] tr1] eqn:Hroot.
  cbn [outcome fst] in *.
  destruct o as [[root' [e|]]|msg|code].
  - unfold getProof. rewrite run_defer, run_bind, Hroot. cbn. eauto.
  - destruct (srv (GetInclusionProofByHash getProof_ctx
                     (proof_request tLogID (HashLeaf byteValue) root')) st1)
      as [[resp err] st2] eqn:Hreply.
    destruct (run_getProof HashLeaf UnmarshalBinary VerifyInclusionProof status_Code
                srv s byteValue tLogID st st1 st2 tr1 root' _ _ Hroot Hreply)
      as (st3 & tr3 & Hrun & _).
    rewrite Hrun. cbn. eauto.
  - unfold getProof. rewrite run_defer, run_bind, Hroot. reflexivity.
  - now apply (Hexit code).
Qed.

End GetProofFurther.

(** X9: the tree size of the fetched root, an unsigned 64-bit number, goes
    into the proof request as a signed one: unchanged below 2^63, and as the
    negative number 2^64 less from there on. *)
Theorem proof_request_tree_size (tLogID : Z) (leafHash : bytes) (root' : LogRootV1.t) :
  0 <= LogRootV1.TreeSize root' < 2 ^ 64 ->
  GetInclusionProofByHashRequest.TreeSize (proof_request tLogID leafHash root')
  = (if LogRootV1.TreeSize root' <? 2 ^ 63
     then LogRootV1.TreeSize root'
     else LogRootV1.TreeSize root' - 2 ^ 64).
Proof.
  intros Hrange. cbn [proof_request GetInclusionProofByHashRequest.TreeSize].
  unfold int64. destruct (Z.ltb_spec (LogRootV1.TreeSize root') (2 ^ 63)) as [Hlt|Hge].
  - rewrite Z.mod_small; lia.
  - replace (LogRootV1.TreeSize root' + 2 ^ 63)
      with (LogRootV1.TreeSize root' - 2 ^ 63 + 1 * 2 ^ 64) by lia.
    rewrite Z.mod_add by lia. rewrite Z.mod_small; lia.
Qed.

Lemma verify_proofs_stops_at_failure_witness :
  run (proof_service (None, None))
      (verify_proofs toy_VerifyInclusionProof toy_decoded_root [x00; x61] 0
         ([toy_good_proof] ++ toy_bad_proof :: [toy_good_proof; toy_good_proof])) []
  = run (proof_service (None, None))
        (verify_proofs toy_VerifyInclusionProof toy_decoded_root [x00; x61] 0
           ([toy_good_proof] ++ [toy_bad_proof])) [].
Proof.
  apply (verify_proofs_stops_at_failure toy_VerifyInclusionProof
           (proof_service (None, None)) toy_decoded_root [x00; x61] 0
           [toy_good_proof] [toy_good_proof; toy_good_proof] toy_bad_proof []).
  vm_compute. discriminate.
Defined.

Lemma getProof_stops_on_root_error_witness :
  outcome (run (root_service (None, Some unavailable)) toy_getProof [])
  = Returned (Response_zero, Some unavailable)
  /\ trace (run (root_service (None, Some unavailable)) toy_getProof [])
     = [GetLatestSignedLogRoot Background
          {| GetLatestSignedLogRootRequest.LogId := 1 |};
        cancel getProof_ctx].
Proof.
  apply (getProof_stops_on_root_error
           toy_HashLeaf toy_UnmarshalBinary toy_VerifyInclusionProof toy_status_Code
           (root_service (None, Some unavailable))
           (serverInstance 1) [x61] 1 [] []
           [GetLatestSignedLogRoot Background
              {| GetLatestSignedLogRootRequest.LogId := 1 |}]
           LogRootV1.zero unavailable).
  reflexivity.
Defined.

Lemma getProof_returns_verified_proofs_witness :
  outcome (run (proof_service (toy_proofs [toy_good_proof; toy_good_proof], None))
             toy_getProof [])
  = Returned ({| status := toy_status_Code None; getLeafResult := None;
                 getProofResult := toy_proofs [toy_good_proof; toy_good_proof] |},
              None).
Proof.
  apply (getProof_returns_verified_proofs
           toy_HashLeaf toy_UnmarshalBinary toy_VerifyInclusionProof toy_status_Code
           (proof_service (toy_proofs [toy_good_proof; toy_good_proof], None))
           (serverInstance 1) [x61] 1 [] []
           [GetLatestSignedLogRoot Background
              {| GetLatestSignedLogRootRequest.LogId := 1 |}]
           toy_decoded_root
           {| GetInclusionProofByHashResponse.Proof_ := [toy_good_proof; toy_good_proof];
              GetInclusionProofByHashResponse.SignedLogRoot := None |}).
  - reflexivity.
  - reflexivity.
  - repeat constructor.
Defined.

(** X9 at a root of 2^63 leaves. *)
Lemma proof_request_tree_size_witness :
  GetInclusionProofByHashRequest.TreeSize
    (proof_request 1 [x00; x61]
       {| LogRootV1.TreeSize := 2 ^ 63; LogRootV1.RootHash := [];
          LogRootV1.TimestampNanos := 0; LogRootV1.Revision := 0 |})
  = 2 ^ 63 - 2 ^ 64.
Proof.
  apply (proof_request_tree_size 1 [x00; x61]
           {| LogRootV1.TreeSize := 2 ^ 63; LogRootV1.RootHash := [];
              LogRootV1.TimestampNanos := 0; LogRootV1.Revision := 0 |}).
  cbn [LogRootV1.TreeSize]. lia.
Defined.

(** ** More on leaf ingestion *)

Section AddLeafFurther.

Context {St : Type} (srv : Service St).

(** X10: whatever the service answers, [addLeaf] sends one queueing
    request, carrying the payload as the leaf value, under the background
    context; it then either returns with a nil error or panics on a nil
    dereference, and it never ends the process. *)
Theorem addLeaf_never_returns_error
  (s : trillianclient) (byteValue : bytes) (tLogID : Z) (st : St) :
  match outcome (run srv (addLeaf s byteValue tLogID) st) with
  | Returned (_, err) => err = None
  | Panicked msg => msg = nil_dereference
  | Exited _ => False
  end
  /\ filter is_QueueLeaf (trace (run srv (addLeaf s byteValue tLogID) st))
     = [QueueLeaf Background (queue_request byteValue tLogID)]
  /\ hd_error (trace (run srv (addLeaf s byteValue tLogID) st))
     = Some (QueueLeaf Background (queue_request byteValue tLogID)).
Proof.
  unfold addLeaf. rewrite run_call_bind.
  fold (queue_request byteValue tLogID).
  destruct (srv _ st) as [[resp err] st1].
  destruct err as [e|]; cbn.
  - destruct (srv (fmt_Println [ArgError e]) st1).
    destruct resp; cbn; repeat split.
  - destruct resp; cbn; repeat split.
Qed.

(** X11: a response without a queued leaf, or with a queued leaf without
    a status, reads as the status OK: the generated getters answer zero on
    nil. *)
Theorem addLeaf_missing_status_reads_OK
  (s : trillianclient) (byteValue : bytes) (tLogID : Z) (st : St)
  (resp : QueueLeafResponse.t) (err : option error) :
  fst (srv (QueueLeaf Background (queue_request byteValue tLogID)) st)
  = (Some resp, err) ->
  QueuedLogLeaf.GetStatus (QueueLeafResponse.QueuedLeaf resp) = None ->
  outcome (run srv (addLeaf s byteValue tLogID) st)
  = Returned ({| status := codes.OK; getLeafResult := None;
                 getProofResult := None |}, None).
Proof.
  intros Hsrv Hstatus. unfold addLeaf. rewrite run_call_bind.
  fold (queue_request byteValue tLogID).
  destruct (srv _ st) as [reply st1]. cbn [fst] in Hsrv. subst reply.
  destruct err as [e|]; cbn.
  - destruct (srv (fmt_Println [ArgError e]) st1). cbn. now rewrite Hstatus.
  - now rewrite Hstatus.
Qed.

End AddLeafFurther.

(** X11 at a queued leaf that carries no status. *)
Lemma addLeaf_missing_status_reads_OK_witness :
  outcome (run (queue_service
                  (Some {| QueueLeafResponse.QueuedLeaf :=
                             Some {| QueuedLogLeaf.Leaf := None;
                                     QueuedLogLeaf.Status := None |} |},
                   Some unavailable))
             (addLeaf (serverInstance 1) [x61] 1) [])
  = Returned ({| status := codes.OK; getLeafResult := None;
                 getProofResult := None |}, None).
Proof.
  apply (addLeaf_missing_status_reads_OK
           (queue_service
              (Some {| QueueLeafResponse.QueuedLeaf :=
                         Some {| QueuedLogLeaf.Leaf := None;
                                 QueuedLogLeaf.Status := None |} |},
               Some unavailable))
           (serverInstance 1) [x61] 1 []
           {| QueueLeafResponse.QueuedLeaf :=
                Some {| QueuedLogLeaf.Leaf := None; QueuedLogLeaf.Status := None |} |}
           (Some unavailable)).
  - reflexivity.
  - reflexivity.
Defined.

(** ** More on leaf lookup *)

Section GetLeafFurther.

Variable HashLeaf : bytes -> bytes.
Variable status_Code : option error -> codes.Code.

Context {St : Type} (srv : Service St).

(** X12: [getLeaf] sends one lookup, for the leaf hash of the payload, and
    never panics; whenever it returns, the error is nil and the status is
    that of a nil error, so neither tells the caller anything about the
    lookup. *)
Theorem getLeaf_return_carries_no_failure
  (s : trillianclient) (byteValue : bytes) (tlog_id : Z) (st : St) :
  match outcome (run srv (getLeaf HashLeaf status_Code s byteValue tlog_id) st) with
  | Returned (r, err) =>
      err = None /\ status r = status_Code None /\ getProofResult r = None
  | Panicked _ => False
  | Exited code => code = 1
  end
  /\ hd_error (trace (run srv (getLeaf HashLeaf status_Code s byteValue tlog_id) st))
     = Some (GetLeavesByHash Background
               (leaves_request (HashLeaf byteValue) tlog_id)).
Proof.
  unfold getLeaf. rewrite run_call_bind.
  fold (leaves_request (HashLeaf byteValue) tlog_id).
  destruct (srv _ st) as [[resp [e|]] st1]; cbn.
  - destruct (srv (Logger_Fatal [ArgError e]) st1). cbn. now split.
  - repeat split.
Qed.

End GetLeafFurther.

(** ** More on the tree provisioner *)

Lemma find_none_of_type (type : TreeType) (trees : list Tree.t) :
  Forall (fun t => Tree.TreeType t <> type) trees ->
  find (fun t => TreeType_eqb (Tree.TreeType t) type) trees = None.
Proof.
  induction 1 as [|t rest Ht _ IH]; [reflexivity|].
  cbn [find]. destruct (TreeType_eqb (Tree.TreeType t) type) eqn:Heq; [|exact IH].
  apply TreeType_eqb_eq in Heq. contradiction.
Qed.

Section ProvisionTreeFurther.

Context {St : Type} (srv : Service St).

(** What provisioning does when the listing holds no tree of the kind. *)
Lemma run_ProvisionTree_missing (kind : Kind) (ctx : Context) (st st1 : St)
  (trees : list Tree.t) :
  srv (ListTrees ctx ListTreesRequest.zero) st
  = ((Some {| ListTreesResponse.Tree := trees |}, None), st1) ->
  Forall (fun t => Tree.TreeType t <> kind_type kind) trees ->
  run srv (ProvisionTree kind ctx) st
  = let (created, st2) := srv (CreateTree ctx (create_request kind)) st1 in
    match snd created with
    | Some e =>
        (Returned (None, Some e), st2,
         [ListTrees ctx ListTreesRequest.zero;
          CreateTree ctx (create_request kind)])
    | None =>
        let (ierr, st3) := serve_init srv kind ctx (fst created) st2 in
        (Returned match ierr with
                  | Some e => (None, Some e)
                  | None => (fst created, None)
                  end,
         st3,
         [ListTrees ctx ListTreesRequest.zero;
          CreateTree ctx (create_request kind);
          init_call kind ctx (fst created)])
    end.
Proof.
  intros Hsrv Hnone. apply find_none_of_type in Hnone.
  destruct kind; cbn [ProvisionTree kind_type create_request serve_init init_call] in *;
    [unfold createAndInitTree | unfold createAndInitMap];
    rewrite run_call_bind, Hsrv; cbn [deref bind ListTreesResponse.Tree];
    rewrite Hnone, run_call_bind;
    (destruct (srv (CreateTree ctx _) st1) as [[t [e|]] st2]; [reflexivity|]);
    cbn [fst snd]; rewrite run_call_bind;
    (destruct (srv _ st2) as [[e|] st3]; reflexivity).
Qed.

(** X13: when the listing fails, provisioning returns the error of the
    listing and no tree, and asks for nothing else. *)
Theorem ProvisionTree_listing_error
  (kind : Kind) (ctx : Context) (st : St)
  (resp : option ListTreesResponse.t) (e : error) :
  fst (srv (ListTrees ctx ListTreesRequest.zero) st) = (resp, Some e) ->
  outcome (run srv (ProvisionTree kind ctx) st) = Returned (None, Some e)
  /\ trace (run srv (ProvisionTree kind ctx) st)
     = [ListTrees ctx ListTreesRequest.zero].
Proof.
  intros Hsrv.
  destruct kind; cbn [ProvisionTree];
    [unfold createAndInitTree | unfold createAndInitMap];
    rewrite run_call_bind;
    destruct (srv _ st) as [reply st1]; cbn [fst] in Hsrv; subst reply;
    now split.
Qed.

(** X19: a listing that reports no error and hands back a nil response
    makes provisioning panic on a nil dereference. *)
Theorem ProvisionTree_panics_on_nil_listing
  (kind : Kind) (ctx : Context) (st : St) :
  fst (srv (ListTrees ctx ListTreesRequest.zero) st) = (None, None) ->
  outcome (run srv (ProvisionTree kind ctx) st) = Panicked nil_dereference.
Proof.
  intros Hsrv.
  destruct kind; cbn [ProvisionTree];
    [unfold createAndInitTree | unfold createAndInitMap];
    rewrite run_call_bind;
    destruct (srv _ st) as [reply st1]; cbn [fst] in Hsrv; subst reply;
    reflexivity.
Qed.

(** X14: when no tree of the kind is listed and the creation fails,
    provisioning returns the error of the creation and no tree, and does not
    ask for an initialization. *)
Theorem ProvisionTree_creation_error
  (kind : Kind) (ctx : Context) (st st1 : St) (trees : list Tree.t)
  (t : option Tree.t) (e : error) :
  srv (ListTrees ctx ListTreesRequest.zero) st
  = ((Some {| ListTreesResponse.Tree := trees |}, None), st1) ->
  Forall (fun t' => Tree.TreeType t' <> kind_type kind) trees ->
  fst (srv (CreateTree ctx (create_request kind)) st1) = (t, Some e) ->
  outcome (run srv (ProvisionTree kind ctx) st) = Returned (None, Some e)
  /\ trace (run srv (ProvisionTree kind ctx) st)
     = [ListTrees ctx ListTreesRequest.zero; CreateTree ctx (create_request kind)].
Proof.
  intros Hlist Hnone Hcreate.
  rewrite (run_ProvisionTree_missing kind ctx st st1 trees Hlist Hnone).
  destruct (srv (CreateTree ctx (create_request kind)) st1) as [created st2].
  cbn [fst] in Hcreate. subst created. now split.
Qed.





Lemma find_after_others (type : TreeType) (trees after : list Tree.t) (t : Tree.t) :
  Forall (fun t' => Tree.TreeType t' <> type) trees ->
  Tree.TreeType t = type ->
  find (fun t => TreeType_eqb (Tree.TreeType t) type) (trees ++ t :: after) = Some t.
Proof.
  intros Hothers Ht. induction Hothers as [|t0 rest Ht0 _ IH]; cbn [app find].
  - apply TreeType_eqb_eq in Ht. now rewrite Ht.
  - destruct (TreeType_eqb (Tree.TreeType t0) type) eqn:Heq; [|exact IH].
    apply TreeType_eqb_eq in Heq. contradiction.
Qed.

(** X18: provisioning twice on a service without a tree of the kind: when
    the first call creates and initializes a tree of that kind and the
    service then lists it behind the trees it had, the second call returns
    the same tree and creates nothing. *)
Theorem ProvisionTree_creates_once
  (kind : Kind) (ctx : Context) (st st1 st2 st3 : St) (trees : list Tree.t)
  (t : Tree.t) :
  srv (ListTrees ctx ListTreesRequest.zero) st
  = ((Some {| ListTreesResponse.Tree := trees |}, None), st1) ->
  Forall (fun t' => Tree.TreeType t' <> kind_type kind) trees ->
  srv (CreateTree ctx (create_request kind)) st1 = ((Some t, None), st2) ->
  serve_init srv kind ctx (Some t) st2 = (None, st3) ->
  Tree.TreeType t = kind_type kind ->
  fst (srv (ListTrees ctx ListTreesRequest.zero) st3)
  = (Some {| ListTreesResponse.Tree := trees ++ [t] |}, None) ->
  outcome (run srv (twice (ProvisionTree kind ctx)) st)
  = Returned ((Some t, None), (Some t, None))
  /\ trace (run srv (twice (ProvisionTree kind ctx)) st)
     = [ListTrees ctx ListTreesRequest.zero;
        CreateTree ctx (create_request kind);
        init_call kind ctx (Some t);
        ListTrees ctx ListTreesRequest.zero].
Proof.
  intros Hlist Hnone Hcreate Hinit Ht Hlist2.
  destruct (srv (ListTrees ctx ListTreesRequest.zero) st3) as [reply st4] eqn:Hsrv2.
  cbn [fst] in Hlist2. subst reply.
  pose proof (find_after_others _ trees [] t Hnone Ht) as Hfind.
  unfold twice.
  rewrite run_bind, (run_ProvisionTree_missing kind ctx st st1 trees Hlist Hnone).
  rewrite Hcreate. cbn [fst snd]. rewrite Hinit.
  rewrite run_bind.
  rewrite (run_ProvisionTree_existing srv kind ctx st3 st4 _ t Hsrv2 Hfind).
  now split.
Qed.

End ProvisionTreeFurther.

Lemma ProvisionTree_listing_error_witness :
  outcome (run (admin_service (None, Some unavailable) (None, None) None)
             (ProvisionTree MAP Background) 0%nat)
  = Returned (None, Some unavailable)
  /\ trace (run (admin_service (None, Some unavailable) (None, None) None)
              (ProvisionTree MAP Background) 0%nat)
     = [ListTrees Background ListTreesRequest.zero].
Proof.
  apply (ProvisionTree_listing_error
           (admin_service (None, Some unavailable) (None, None) None)
           MAP Background 0%nat None unavailable).
  reflexivity.
Defined.

Lemma ProvisionTree_panics_on_nil_listing_witness :
  outcome (run (admin_service (None, None) (None, None) None)
             (ProvisionTree LOG Background) 0%nat)
  = Panicked nil_dereference.
Proof.
  apply (ProvisionTree_panics_on_nil_listing
           (admin_service (None, None) (None, None) None) LOG Background 0%nat).
  reflexivity.
Defined.

(** X14 on a service that lists a map tree only and refuses to create. *)
Lemma ProvisionTree_creation_error_witness :
  outcome (run (admin_service (toy_listing [toy_map_tree])
                  (None, Some (errors_New "permission denied")) None)
             (ProvisionTree LOG Background) 0%nat)
  = Returned (None, Some (errors_New "permission denied"))
  /\ trace (run (admin_service (toy_listing [toy_map_tree])
                   (None, Some (errors_New "permission denied")) None)
              (ProvisionTree LOG Background) 0%nat)
     = [ListTrees Background ListTreesRequest.zero;
        CreateTree Background (create_request LOG)].
Proof.
  apply (ProvisionTree_creation_error
           (admin_service (toy_listing [toy_map_tree])
              (None, Some (errors_New "permission denied")) None)
           LOG Background 0%nat 1%nat [toy_map_tree] None
           (errors_New "permission denied")).
  - reflexivity.
  - repeat constructor. discriminate.
  - reflexivity.
Defined.



(** X18 on the service that keeps the trees it creates, holding a log
    tree to begin with. *)
Lemma ProvisionTree_creates_once_witness :
  outcome (run (queue_service (None, None)) (twice (ProvisionTree MAP Background))
             [toy_log_tree])
  = Returned
      ((Some (with_id 2 (new_tree TreeType_MAP HashStrategy_CONIKS_SHA256)), None),
       (Some (with_id 2 (new_tree TreeType_MAP HashStrategy_CONIKS_SHA256)), None))
  /\ trace (run (queue_service (None, None)) (twice (ProvisionTree MAP Background))
              [toy_log_tree])
     = [ListTrees Background ListTreesRequest.zero;
        CreateTree Background (create_request MAP);
        init_call MAP Background
          (Some (with_id 2 (new_tree TreeType_MAP HashStrategy_CONIKS_SHA256)));
        ListTrees Background ListTreesRequest.zero].
Proof.
  apply (ProvisionTree_creates_once (queue_service (None, None)) MAP Background
           [toy_log_tree] [toy_log_tree]
           [toy_log_tree; with_id 2 (new_tree TreeType_MAP HashStrategy_CONIKS_SHA256)]
           [toy_log_tree; with_id 2 (new_tree TreeType_MAP HashStrategy_CONIKS_SHA256)]
           [toy_log_tree]
           (with_id 2 (new_tree TreeType_MAP HashStrategy_CONIKS_SHA256))).
  - reflexivity.
  - repeat constructor. discriminate.
  - reflexivity.
  - reflexivity.
  - reflexivity.
  - reflexivity.
Defined.

(** ** More on the admission policy *)

Section FileTypeFurther.

Variable http_DetectContentType : bytes -> string.

(** X20: enforcing text only can only refuse more: a payload allowed
    while the flag is set is allowed, with a nil error, under every
    configuration. *)
Theorem IsFileTypeAllowed_enforcing_only_restricts
  (enforcing other : string -> bool) (byteLeaf : bytes) :
  enforcing "rekor_server.enforce_text_only" = true ->
  fst (IsFileTypeAllowed http_DetectContentType enforcing byteLeaf) = true ->
  IsFileTypeAllowed http_DetectContentType other byteLeaf = (true, None).
Proof.
  unfold IsFileTypeAllowed. intros -> Hallowed. cbn [Bool.eqb] in Hallowed.
  destruct (strings_Contains (http_DetectContentType byteLeaf) "text/plain");
    [|discriminate].
  now destruct (Bool.eqb (other "rekor_server.enforce_text_only") true).
Qed.

(** X21: a payload whose detected type is ["text/plain"] followed by
    parameters, such as a character set, is allowed whatever the
    configuration. *)
Theorem IsFileTypeAllowed_text_plain_with_parameters
  (viper_GetBool : string -> bool) (byteLeaf : bytes) (parameters : string) :
  http_DetectContentType byteLeaf = ("text/plain" ++ parameters)%string ->
  IsFileTypeAllowed http_DetectContentType viper_GetBool byteLeaf = (true, None).
Proof.
  intros Htype. unfold IsFileTypeAllowed.
  assert (Hin : strings_Contains (http_DetectContentType byteLeaf) "text/plain" = true).
  { apply Contains_iff_substring. exists EmptyString, parameters. exact Htype. }
  rewrite Hin.
  now destruct (Bool.eqb (viper_GetBool "rekor_server.enforce_text_only") true).
Qed.

End FileTypeFurther.

Lemma IsFileTypeAllowed_enforcing_only_restricts_witness :
  IsFileTypeAllowed toy_DetectContentType (enforce_text_only false)
    (list_byte_of_string "hello world") = (true, None).
Proof.
  apply (IsFileTypeAllowed_enforcing_only_restricts toy_DetectContentType
           (enforce_text_only true) (enforce_text_only false)
           (list_byte_of_string "hello world")).
  - reflexivity.
  - reflexivity.
Defined.

Lemma IsFileTypeAllowed_text_plain_with_parameters_witness :
  IsFileTypeAllowed toy_DetectContentType (enforce_text_only true) []
  = (true, None).
Proof.
  apply (IsFileTypeAllowed_text_plain_with_parameters toy_DetectContentType
           (enforce_text_only true) [] "; charset=utf-8").
  reflexivity.
Defined.
